(** * Ed448 / Ed448ph signing, verification and key derivation (CRACEN PSA driver)

    A shallow embedding of
    [subsys/nrf_security/src/drivers/cracen/cracenpsa/src/ed448.c].

    Bytes ([uint8_t]) are modelled as [N]; a C array is a [list N] of the
    array's size, and a pointer into an array is the array together with an
    offset.  [int] status codes are [Z].  A [(pointer, length)] message
    argument is a [list N] whose length is [message_length].

    Stack arrays are not initialised by the C code, so every function takes
    the initial contents of its local arrays as explicit arguments and
    returns their final contents next to the status: what is left on the
    stack at return time is part of the observable result. *)

From stdpp Require Import base decidable option numbers list.
From Stdlib Require Import ZArith NArith Lia.

(** ** Constants

    [silexpk/ed448.h] and [cracen/statuscodes.h] are not part of the
    sources at hand; the sizes are the ones the driver's comments and the
    buffer arithmetic fix (a 57 byte key, point and scalar, a 114 byte
    SHAKE256 digest, [workmem] of [5 * 57] bytes), and [SX_OK] is 0. *)

Abbreviation SX_ED448_SZ := 57%nat (only parsing).
Abbreviation SX_ED448_PT_SZ := 57%nat (only parsing).
Abbreviation SX_ED448_DGST_SZ := 114%nat (only parsing).
Abbreviation AREA2_MEM_OFFSET := 57%nat (only parsing).
Abbreviation AREA4_MEM_OFFSET := 171%nat (only parsing).
Abbreviation WORKMEM_SZ := (5 * 57)%nat (only parsing).

Definition SX_OK : Z := 0.

(** [static uint8_t dom4[]]: the ASCII string "SigEd448". *)
Definition dom4 : list N :=
  [0x53; 0x69; 0x67; 0x45; 0x64; 0x34; 0x34; 0x38]%N.

(** ** Buffers *)

(** [sub off n buf]: the [n] bytes read through a pointer [buf + off]. *)
Definition sub {A} (off n : nat) (buf : list A) : list A :=
  take n (drop off buf).

(** [upd off data buf]: [data] stored through a pointer [buf + off].  The
    array keeps its size; bytes that would fall behind its end (undefined
    behaviour in C) are not stored. *)
Definition upd {A} (off : nat) (data buf : list A) : list A :=
  list_inserts off data buf.

(** [memcpy(dst + doff, src + soff, n)] between two distinct arrays. *)
Definition memcpy (doff : nat) (src : list N) (soff n : nat) (dst : list N)
  : list N :=
  upd doff (sub soff n src) dst.

(** Modelled from the spec: [safe_memset] and [safe_memzero] of
    [cracen/mem_helpers.h], which is not among the sources.  The spec has
    them zero the second digest half (step 5) and the scratch buffers
    (step 10); [safe_memset(dest, dest_size, ch, n)] stores [n] bytes [ch],
    never more than [dest_size]. *)
Definition safe_memset (off dest_size : nat) (ch : N) (n : nat)
    (buf : list N) : list N :=
  upd off (replicate (n `min` dest_size) ch) buf.

Definition safe_memzero (off dest_size : nat) (buf : list N) : list N :=
  safe_memset off dest_size 0%N dest_size buf.

(** ** The primitives the driver calls

    The hash engine ([cracen_hash_input], [cracen_hash_all_inputs], always
    called with [sxhashalg_shake256_114]), the curve operations
    ([sx_ed448_ptmult], [sx_ed448_sign], [sx_ed448_verify]) and the scalar
    clamping ([decode_scalar_448]) live outside this file.  Each one is a
    function from the bytes it reads to a status and the bytes it stores
    into its output buffer; it consumes its inputs before it stores, which
    is what makes the overlapping input and output areas of the driver
    sound. *)
Class Backend := {
  cracen_hash_input : list N → Z * list N;
  cracen_hash_all_inputs : list (list N) → Z * list N;
  sx_ed448_ptmult : list N → Z * list N;
  sx_ed448_sign : list N → list N → list N → Z * list N;
  sx_ed448_verify : list N → list N → list N → list N → Z;
  decode_scalar_448 : list N → list N;
}.

(** What is on the stack of [ed448_sign_internal], and in the caller's
    signature buffer. *)
Record sign_frame := SignFrame {
  fr_signature : list N;
  fr_workmem : list N;
  fr_pnt_r : list N;
}.

(** What is on the stack of [cracen_ed448_create_pubkey], and in the
    caller's public key buffer. *)
Record pubkey_frame := PubkeyFrame {
  fr_pub_key : list N;
  fr_digest : list N;
}.

Section Driver.
Context {backend : Backend}.

(** The [input_count] entries of [hash_array + offset] in
    [ed448_calculate_r]; [workmem] is an offset into [mem]. *)
Definition ed448_r_inputs (mem : list N) (workmem : nat)
    (message : list N) (prehash : bool) : list (list N) :=
  let hash_array := [dom4; sub workmem SX_ED448_SZ mem; message] in
  let offset := if prehash then 0 else 1 in
  let input_count := 3 - offset in
  sub offset input_count hash_array.

Definition ed448_calculate_r (mem : list N) (workmem : nat)
    (message : list N) (prehash : bool) : Z * list N :=
  let '(status, out) :=
    cracen_hash_all_inputs (ed448_r_inputs mem workmem message prehash) in
  (status, upd (workmem + SX_ED448_DGST_SZ) out mem).

(** The [input_count] entries of [&hash_array[offset]] in
    [ed448_calculate_k]. *)
Definition ed448_k_inputs (mem : list N) (workmem : nat)
    (point_r message : list N) (prehash : bool) : list (list N) :=
  let hash_array :=
    [dom4; sub 0 SX_ED448_SZ point_r; sub workmem SX_ED448_SZ mem; message] in
  let offset := if prehash then 0 else 1 in
  let input_count := 4 - offset in
  sub offset input_count hash_array.

Definition ed448_calculate_k (mem : list N) (workmem : nat)
    (point_r message : list N) (prehash : bool) : Z * list N :=
  let '(status, out) :=
    cracen_hash_all_inputs
      (ed448_k_inputs mem workmem point_r message prehash) in
  (status, upd workmem out mem).

Definition ed448_sign_internal (priv_key signature message : list N)
    (prehash : bool) (workmem pnt_r : list N) : Z * sign_frame :=
  let area_1 := 0 in
  let area_2 := 0 + AREA2_MEM_OFFSET in
  let area_4 := 0 + AREA4_MEM_OFFSET in
  let '(status, out) := cracen_hash_input (sub 0 SX_ED448_SZ priv_key) in
  let workmem := upd area_1 out workmem in
  if decide (status ≠ SX_OK) then (status, SignFrame signature workmem pnt_r) else
  let '(status, workmem) := ed448_calculate_r workmem area_2 message prehash in
  if decide (status ≠ SX_OK) then (status, SignFrame signature workmem pnt_r) else
  let '(status, out) := sx_ed448_ptmult (sub area_4 SX_ED448_DGST_SZ workmem) in
  let pnt_r := upd 0 out pnt_r in
  if decide (status ≠ SX_OK) then (status, SignFrame signature workmem pnt_r) else
  let workmem :=
    upd area_1 (decode_scalar_448 (sub area_1 SX_ED448_SZ workmem)) workmem in
  let workmem :=
    safe_memset area_2 (WORKMEM_SZ - SX_ED448_SZ) 0 SX_ED448_SZ workmem in
  let '(status, out) := sx_ed448_ptmult (sub area_1 SX_ED448_DGST_SZ workmem) in
  let workmem := upd area_2 out workmem in
  if decide (status ≠ SX_OK) then (status, SignFrame signature workmem pnt_r) else
  let '(status, workmem) :=
    ed448_calculate_k workmem area_2 pnt_r message prehash in
  if decide (status ≠ SX_OK) then (status, SignFrame signature workmem pnt_r) else
  let '(status, out) :=
    sx_ed448_sign (sub area_2 SX_ED448_DGST_SZ workmem)
                  (sub area_4 SX_ED448_DGST_SZ workmem)
                  (sub area_1 SX_ED448_SZ workmem) in
  let pnt_r := upd (0 + SX_ED448_PT_SZ) out pnt_r in
  if decide (status ≠ SX_OK) then (status, SignFrame signature workmem pnt_r) else
  let signature := memcpy 0 pnt_r 0 SX_ED448_DGST_SZ signature in
  let workmem := safe_memzero 0 WORKMEM_SZ workmem in
  (status, SignFrame signature workmem pnt_r).

Definition cracen_ed448_sign (priv_key signature message : list N)
    (workmem pnt_r : list N) : Z * sign_frame :=
  ed448_sign_internal priv_key signature message false workmem pnt_r.

(** [hashedmessage] is the initial content of the local array of that
    name; the other two are the locals of [ed448_sign_internal]. *)
Definition cracen_ed448ph_sign (priv_key signature message : list N)
    (is_message : bool) (hashedmessage workmem pnt_r : list N)
    : Z * sign_frame :=
  if is_message then
    let '(status, out) := cracen_hash_input message in
    let hashedmessage := upd 0 out hashedmessage in
    if decide (status ≠ SX_OK) then (status, SignFrame signature workmem pnt_r)
    else
      ed448_sign_internal priv_key signature
        (sub 0 SX_ED448_DGST_SZ hashedmessage) true workmem pnt_r
  else
    ed448_sign_internal priv_key signature message true workmem pnt_r.

(** The [input_count] entries of [&hash_array[offset]] in
    [ed448_verify_internal]. *)
Definition ed448_verify_inputs (pub_key message signature : list N)
    (prehash : bool) : list (list N) :=
  let ed448_sz := SX_ED448_SZ in
  let offset := if prehash then 0 else 1 in
  let input_count := 4 - offset in
  let hash_array :=
    [dom4; sub 0 ed448_sz signature; sub 0 ed448_sz pub_key; message] in
  sub offset input_count hash_array.

(** The challenge digest as [ed448_verify_internal] leaves it in its
    local [digest] array. *)
Definition ed448_verify_digest (pub_key message signature : list N)
    (prehash : bool) (digest : list N) : Z * list N :=
  let '(status, out) :=
    cracen_hash_all_inputs
      (ed448_verify_inputs pub_key message signature prehash) in
  (status, upd 0 out digest).

Definition ed448_verify_internal (pub_key message signature : list N)
    (prehash : bool) (digest : list N) : Z :=
  let '(status, digest) :=
    ed448_verify_digest pub_key message signature prehash digest in
  if decide (status ≠ SX_OK) then status else
  sx_ed448_verify (sub 0 SX_ED448_DGST_SZ digest)
                  (sub 0 SX_ED448_PT_SZ pub_key)
                  (sub SX_ED448_SZ SX_ED448_SZ signature)
                  (sub 0 SX_ED448_PT_SZ signature).

Definition cracen_ed448_verify (pub_key message signature : list N)
    (digest : list N) : Z :=
  ed448_verify_internal pub_key message signature false digest.

Definition cracen_ed448ph_verify (pub_key message signature : list N)
    (is_message : bool) (message_digest digest : list N) : Z :=
  if is_message then
    let '(status, out) := cracen_hash_input message in
    let message_digest := upd 0 out message_digest in
    if decide (status ≠ SX_OK) then status
    else
      ed448_verify_internal pub_key (sub 0 SX_ED448_DGST_SZ message_digest)
        signature true digest
  else ed448_verify_internal pub_key message signature true digest.

Definition cracen_ed448_create_pubkey (priv_key pub_key : list N)
    (digest : list N) : Z * pubkey_frame :=
  let pub_key_A := 0 + SX_ED448_SZ in
  let '(status, out) := cracen_hash_input (sub 0 SX_ED448_SZ priv_key) in
  let digest := upd 0 out digest in
  if decide (status ≠ SX_OK) then (status, PubkeyFrame pub_key digest) else
  let digest :=
    upd 0 (decode_scalar_448 (sub 0 SX_ED448_SZ digest)) digest in
  let digest := safe_memset pub_key_A SX_ED448_SZ 0 SX_ED448_SZ digest in
  let '(status, out) := sx_ed448_ptmult (sub 0 SX_ED448_DGST_SZ digest) in
  let digest := upd pub_key_A out digest in
  if decide (status ≠ SX_OK) then (status, PubkeyFrame pub_key digest) else
  let pub_key := memcpy 0 digest pub_key_A SX_ED448_SZ pub_key in
  let digest := safe_memzero 0 SX_ED448_DGST_SZ digest in
  (status, PubkeyFrame pub_key digest).

End Driver.

(** ** Contracts of the primitives

    The sizes of what a primitive stores when it succeeds: a 114 byte
    digest ([struct sx_ed448_dgst]), a 57 byte encoded point
    ([struct sx_ed448_pt]) or scalar ([struct sx_ed448_v]);
    [decode_scalar_448] works in place on 57 bytes. *)
Class BackendOK (backend : Backend) : Prop := {
  hash_input_length m d :
    cracen_hash_input m = (SX_OK, d) → length d = SX_ED448_DGST_SZ;
  hash_all_inputs_length ms d :
    cracen_hash_all_inputs ms = (SX_OK, d) → length d = SX_ED448_DGST_SZ;
  ptmult_length d p :
    sx_ed448_ptmult d = (SX_OK, p) → length p = SX_ED448_PT_SZ;
  sign_length k r s S_enc :
    sx_ed448_sign k r s = (SX_OK, S_enc) → length S_enc = SX_ED448_SZ;
  decode_scalar_length k :
    length k = SX_ED448_SZ → length (decode_scalar_448 k) = SX_ED448_SZ;
}.

(** Every hash and curve computation reports [SX_OK]: no fault in the
    hash engine or the accelerator. *)
Definition primitives_succeed (backend : Backend) : Prop :=
  (∀ m, (cracen_hash_input m).1 = SX_OK) ∧
  (∀ ms, (cracen_hash_all_inputs ms).1 = SX_OK) ∧
  (∀ d, (sx_ed448_ptmult d).1 = SX_OK) ∧
  (∀ k r s, (sx_ed448_sign k r s).1 = SX_OK).

(** ** The values behind the buffers

    [ed448_sign_internal] and [cracen_ed448_create_pubkey] once more, with
    every slice of [workmem], [pnt_r] and [digest] replaced by the value
    the slice holds at that point: the same primitive calls in the same
    order, without memory.  These two are the right-hand sides of
    [ed448_sign_internal_value] and [cracen_ed448_create_pubkey_value]
    below. *)
Section Values.
Context {backend : Backend}.

Definition r_hash_list (prefix message : list N) (prehash : bool)
    : list (list N) :=
  if prehash then [dom4; prefix; message] else [prefix; message].

Definition k_hash_list (R A message : list N) (prehash : bool)
    : list (list N) :=
  if prehash then [dom4; R; A; message] else [R; A; message].

Definition sign_value (priv_key message : list N) (prehash : bool)
    : Z * list N :=
  let '(status, d) := cracen_hash_input (sub 0 SX_ED448_SZ priv_key) in
  if decide (status ≠ SX_OK) then (status, []) else
  let '(status, r) :=
    cracen_hash_all_inputs
      (r_hash_list (sub SX_ED448_SZ SX_ED448_SZ d) message prehash) in
  if decide (status ≠ SX_OK) then (status, []) else
  let '(status, R) := sx_ed448_ptmult r in
  if decide (status ≠ SX_OK) then (status, []) else
  let s := decode_scalar_448 (sub 0 SX_ED448_SZ d) in
  let '(status, A) := sx_ed448_ptmult (s ++ replicate SX_ED448_SZ 0%N) in
  if decide (status ≠ SX_OK) then (status, []) else
  let '(status, k) :=
    cracen_hash_all_inputs (k_hash_list R A message prehash) in
  if decide (status ≠ SX_OK) then (status, []) else
  let '(status, S_enc) := sx_ed448_sign k r s in
  if decide (status ≠ SX_OK) then (status, []) else
  (status, R ++ S_enc).

Definition pubkey_value (priv_key : list N) : Z * list N :=
  let '(status, d) := cracen_hash_input (sub 0 SX_ED448_SZ priv_key) in
  if decide (status ≠ SX_OK) then (status, []) else
  let s := decode_scalar_448 (sub 0 SX_ED448_SZ d) in
  let '(status, A) := sx_ed448_ptmult (s ++ replicate SX_ED448_SZ 0%N) in
  if decide (status ≠ SX_OK) then (status, []) else
  (status, A).
End Values.

(** ** The primitives as the specification describes them *)

(** Modelled from the spec: [decode_scalar_448] of [cracen/ec_helpers.h],
    which is not among the sources.  The clamping of RFC 8032 5.2.5 the
    spec refers to: the two low bits of the first byte are cleared, the
    high bit of the second to last byte is set, the last byte is cleared. *)
Definition decode_scalar_448_rfc (k : list N) : list N :=
  <[56 := 0%N]> (alter (λ b, N.lor b 0x80) 55 (alter (λ b, N.land b 0xFC) 0 k)).

(** The little-endian number a byte string stands for, and the [n] byte
    little-endian encoding of a number. *)
Definition le (l : list N) : N := foldr (λ b acc, (b + 256 * acc)%N) 0%N l.

Fixpoint enc_le (n : nat) (v : N) : list N :=
  match n with
  | 0 => []
  | S n => (v mod 256)%N :: enc_le n (v / 256)%N
  end.

(** Modelled from the spec: the group of the curve, its base point [B] of
    order [L], the point encoding, and SHAKE256 with 114 bytes of output,
    the collaborators the spec leaves external. *)
Class Curve := {
  G : Type;
  G_eq_dec :: EqDecision G;
  gadd : G → G → G;
  gzero : G;
  B : G;
  L : N;
  enc_pt : G → list N;
  dec_pt : list N → option G;
  shake256_114 : list N → list N;
}.

(** [smul n P] is [[n]P], by doubling and adding. *)
Definition smul {curve : Curve} (n : N) (P : G) : G :=
  match n with
  | N0 => gzero
  | Npos p => Pos.iter_op gadd p P
  end.

(** Status of a signature that does not verify, and of an input that is
    not the encoding of a point; any two values other than [SX_OK]. *)
Definition SX_ERR_INVALID_SIGNATURE : Z := -1.
Definition SX_ERR_POINT_NOT_ON_CURVE : Z := -2.

(** Modelled from the spec: the hash engine and the curve operations of
    sxsymcrypt and silexpk, which are not among the sources.
    [hash_shake256] hashes the concatenation of its inputs into 114 bytes;
    [curve_scalar_mult_base] multiplies [B] by its 114 byte digest read as
    a number and reduced mod [L]; [scalar_field_combine] is
    [(r + k*s) mod L] in 57 bytes; [curve_verify_combined] decodes [R] and
    the public key and checks [[S]B = R + [k]A]. *)
#[local] Instance spec_backend {curve : Curve} : Backend := {|
  cracen_hash_input m := (SX_OK, shake256_114 m);
  cracen_hash_all_inputs ms := (SX_OK, shake256_114 (concat ms));
  sx_ed448_ptmult d := (SX_OK, enc_pt (smul (le d mod L) B));
  sx_ed448_sign k r s :=
    (SX_OK, enc_le SX_ED448_SZ ((le r + le k * le s) mod L));
  sx_ed448_verify k A_enc S_enc R_enc :=
    match dec_pt R_enc, dec_pt A_enc with
    | Some R, Some A =>
        if decide (smul (le S_enc) B = gadd R (smul (le k) A)) then SX_OK
        else SX_ERR_INVALID_SIGNATURE
    | _, _ => SX_ERR_POINT_NOT_ON_CURVE
    end;
  decode_scalar_448 := decode_scalar_448_rfc;
|}.

(** Modelled from the spec: what it assumes of its collaborators, a monoid
    in which [B] has order [L], an [L] that fits 57 bytes, a point encoding
    of 57 bytes that decodes back, and a hash with 114 bytes of output. *)
Class CurveLaws (curve : Curve) : Prop := {
  gadd_assoc P Q R : gadd P (gadd Q R) = gadd (gadd P Q) R;
  gadd_zero_l P : gadd gzero P = P;
  gadd_zero_r P : gadd P gzero = P;
  smul_order : smul L B = gzero;
  L_pos : (0 < L)%N;
  L_bound : (L ≤ 256 ^ 57)%N;
  length_enc_pt P : length (enc_pt P) = SX_ED448_PT_SZ;
  dec_enc_pt P : dec_pt (enc_pt P) = Some P;
  length_shake256_114 m : length (shake256_114 m) = SX_ED448_DGST_SZ;
}.

(** ** A small instance to run the driver on

    The cyclic group of order 7 with generator [P1], and a checksum in the
    place of SHAKE256. *)
Inductive toy_pt := P0 | P1 | P2 | P3 | P4 | P5 | P6.

#[local] Instance toy_pt_eq_dec : EqDecision toy_pt.
Proof. solve_decision. Defined.

Definition toy_pt_to_N (P : toy_pt) : N :=
  match P with
  | P0 => 0 | P1 => 1 | P2 => 2 | P3 => 3 | P4 => 4 | P5 => 5 | P6 => 6
  end%N.

Definition toy_pt_of_N (n : N) : toy_pt :=
  match (n mod 7)%N with
  | 0 => P0 | 1 => P1 | 2 => P2 | 3 => P3 | 4 => P4 | 5 => P5 | _ => P6
  end%N.

Definition toy_add (P Q : toy_pt) : toy_pt :=
  toy_pt_of_N (toy_pt_to_N P + toy_pt_to_N Q).

Definition toy_hash (m : list N) : list N :=
  let x := foldr (λ b acc, (b + 31 * acc + 7) mod 65521)%N 1%N m in
  (λ i, (x * (N.of_nat i + 1) + N.of_nat i) mod 256)%N <$> seq 0 SX_ED448_DGST_SZ.

#[local] Instance toy_curve : Curve := {|
  G := toy_pt;
  gadd := toy_add;
  gzero := P0;
  B := P1;
  L := 7%N;
  enc_pt P := toy_pt_to_N P :: replicate 56 0%N;
  dec_pt l :=
    match l with
    | b :: _ => if decide (b < 7)%N then Some (toy_pt_of_N b) else None
    | [] => None
    end;
  shake256_114 := toy_hash;
|}.

#[local] Instance toy_backend : Backend := spec_backend.

(** The accelerator reporting a fault in the scalar combination. *)
Definition SX_ERR_PLATFORM_ERROR : Z := -3.

#[local] Instance faulty_sign_backend : Backend := {|
  cracen_hash_input := cracen_hash_input (Backend := toy_backend);
  cracen_hash_all_inputs := cracen_hash_all_inputs (Backend := toy_backend);
  sx_ed448_ptmult := sx_ed448_ptmult (Backend := toy_backend);
  sx_ed448_sign _ _ _ := (SX_ERR_PLATFORM_ERROR, []);
  sx_ed448_verify := sx_ed448_verify (Backend := toy_backend);
  decode_scalar_448 := decode_scalar_448_rfc;
|}.

(** The accelerator reporting a fault in every point multiplication. *)
#[local] Instance faulty_ptmult_backend : Backend := {|
  cracen_hash_input := cracen_hash_input (Backend := toy_backend);
  cracen_hash_all_inputs := cracen_hash_all_inputs (Backend := toy_backend);
  sx_ed448_ptmult _ := (SX_ERR_PLATFORM_ERROR, []);
  sx_ed448_sign := sx_ed448_sign (Backend := toy_backend);
  sx_ed448_verify := sx_ed448_verify (Backend := toy_backend);
  decode_scalar_448 := decode_scalar_448_rfc;
|}.

(** Modelled from the spec: the two curve computations of signing, which
    are not among the sources, for a backend that may also fail: a point multiplication that succeeds has
    stored the encoding of [[d mod L]B], a scalar combination that succeeds
    the 57 byte encoding of [(r + k*s) mod L]. *)
Definition curve_contract (curve : Curve) (backend : Backend) : Prop :=
  (∀ d p, sx_ed448_ptmult d = (SX_OK, p) →
          p = enc_pt (smul (le d mod L) B)) ∧
  (∀ k r s S_enc, sx_ed448_sign k r s = (SX_OK, S_enc) →
          S_enc = enc_le SX_ED448_SZ ((le r + le k * le s) mod L)).

(** ** Sample inputs *)

(** The seed 01 02 ... 39 (hex), a three byte message, caller buffers
    filled with a pattern, and zeroed or patterned stack arrays. *)
Definition sample_seed : list N := (λ i, N.of_nat i) <$> seq 1 SX_ED448_SZ.
Definition sample_message : list N := [1; 2; 3]%N.
Definition sample_signature_buffer : list N := replicate 120 0xCC%N.
Definition sample_pub_key_buffer : list N := replicate 60 0xDD%N.
Definition stack_zero (n : nat) : list N := replicate n 0%N.
Definition stack_junk (n : nat) : list N := replicate n 0xAA%N.

(** ** Montgomery curve point multiplication ([silexpk/src/montgomery.c])

    [sx_x25519_ptmult] and [sx_x448_ptmult] hand a scalar and a point to
    the public key accelerator and read the product back.  The accelerator
    and its memory are outside the sources: reserving the input slots
    gives a status and the two slots [p] and [k] of
    [struct sx_pk_inops_montgomery_mult] with what they hold, running the
    command and waiting for it gives a status and the first output
    operand, and three helpers move bytes between the caller's memory and
    the accelerator's. *)

Abbreviation SX_X25519_OP_SZ := 32%nat (only parsing).
Abbreviation SX_X448_OP_SZ := 56%nat (only parsing).

Inductive sx_pk_cmd := SX_PK_CMD_MONTGOMERY_PTMUL.
Inductive sx_pk_ecurve := sx_curve_x25519 | sx_curve_x448.

Class Accelerator := {
  sx_pk_list_ecc_inslots : sx_pk_cmd → sx_pk_ecurve → Z * (list N * list N);
  sx_pk_run_wait : sx_pk_cmd → sx_pk_ecurve → list N → list N → Z * list N;
  sx_wrpkmem : list N → list N → nat → list N;
  sx_wrpkmem_byte : nat → N → list N → list N;
  sx_rdpkmem : list N → list N → nat → list N;
}.

(** The helpers copy: [sx_wrpkmem dst src sz] and [sx_rdpkmem dst src sz]
    are [dst] with the first [sz] bytes of [src] stored at its start,
    [sx_wrpkmem_byte i v slot] is [slot] with [v] stored at index [i]. *)
Class AcceleratorMem (acc : Accelerator) : Prop := {
  sx_wrpkmem_copies dst src sz : sx_wrpkmem dst src sz = upd 0 (sub 0 sz src) dst;
  sx_wrpkmem_byte_stores i v slot : sx_wrpkmem_byte i v slot = <[i := v]> slot;
  sx_rdpkmem_copies dst src sz : sx_rdpkmem dst src sz = upd 0 (sub 0 sz src) dst;
}.

Section Montgomery.
Context {acc : Accelerator}.

(** [k], [pt]: the 32 bytes of the two [struct sx_x25519_op] inputs; [r]:
    the caller's result buffer.  The result is the status and [r] at
    return. *)
Definition sx_x25519_ptmult (k pt r : list N) : Z * list N :=
  let curve := sx_curve_x25519 in
  let cmd := SX_PK_CMD_MONTGOMERY_PTMUL in
  let '(status, (inputs_p, inputs_k)) := sx_pk_list_ecc_inslots cmd curve in
  if decide (status ≠ SX_OK) then (status, r) else
  let inputs_p := sx_wrpkmem inputs_p pt SX_X25519_OP_SZ in
  let inputs_k := sx_wrpkmem inputs_k k SX_X25519_OP_SZ in
  let inputs_k :=
    sx_wrpkmem_byte 31
      (N.land (N.lor (inputs_k !!! 31) (N.shiftl 1 6)) 0x7f) inputs_k in
  let inputs_k :=
    sx_wrpkmem_byte 0 (N.land (inputs_k !!! 0) 0xF8) inputs_k in
  let inputs_p :=
    sx_wrpkmem_byte 31 (N.land (inputs_p !!! 31) 0x7f) inputs_p in
  let '(status, outputs_0) := sx_pk_run_wait cmd curve inputs_p inputs_k in
  if decide (status ≠ SX_OK) then (status, r) else
  (status, sx_rdpkmem r outputs_0 SX_X25519_OP_SZ).

Definition sx_x448_ptmult (k pt r : list N) : Z * list N :=
  let curve := sx_curve_x448 in
  let cmd := SX_PK_CMD_MONTGOMERY_PTMUL in
  let '(status, (inputs_p, inputs_k)) := sx_pk_list_ecc_inslots cmd curve in
  if decide (status ≠ SX_OK) then (status, r) else
  let inputs_p := sx_wrpkmem inputs_p pt SX_X448_OP_SZ in
  let inputs_k := sx_wrpkmem inputs_k k SX_X448_OP_SZ in
  let inputs_k :=
    sx_wrpkmem_byte 55 (N.lor (inputs_k !!! 55) 0x80) inputs_k in
  let inputs_k :=
    sx_wrpkmem_byte 0 (N.land (inputs_k !!! 0) 0xFC) inputs_k in
  let '(status, outputs_0) := sx_pk_run_wait cmd curve inputs_p inputs_k in
  if decide (status ≠ SX_OK) then (status, r) else
  (status, sx_rdpkmem r outputs_0 SX_X448_OP_SZ).
End Montgomery.

(** An accelerator to run the two functions on: slots of 64 bytes holding
    a pattern, and a command that returns the byte-wise sum of the point
    and the scalar it was given; and one whose command reports a fault. *)
#[local] Instance toy_accelerator : Accelerator := {|
  sx_pk_list_ecc_inslots _ _ := (SX_OK, (replicate 64 0x11%N, replicate 64 0x22%N));
  sx_pk_run_wait _ _ p k := (SX_OK, zip_with (λ a b, (a + b) mod 256)%N p k);
  sx_wrpkmem dst src sz := upd 0 (sub 0 sz src) dst;
  sx_wrpkmem_byte i v slot := <[i := v]> slot;
  sx_rdpkmem dst src sz := upd 0 (sub 0 sz src) dst;
|}.

#[local] Instance faulty_accelerator : Accelerator := {|
  sx_pk_list_ecc_inslots _ _ := (SX_OK, (replicate 64 0x11%N, replicate 64 0x22%N));
  sx_pk_run_wait _ _ p k := (SX_ERR_PLATFORM_ERROR, zip_with N.add p k);
  sx_wrpkmem dst src sz := upd 0 (sub 0 sz src) dst;
  sx_wrpkmem_byte i v slot := <[i := v]> slot;
  sx_rdpkmem dst src sz := upd 0 (sub 0 sz src) dst;
|}.

(** The scalar FF FF ... FF and the point 01 02 ... of [n] bytes. *)
Definition sample_scalar (n : nat) : list N := replicate n 0xFF%N.
Definition sample_point (n : nat) : list N := (λ i, N.of_nat i) <$> seq 1 n.

(** ** Reading and storing slices *)

Section Buffers.
Context {A : Type}.
Implicit Types (buf data : list A) (off n : nat).

Lemma lookup_sub off n buf i :
  sub off n buf !! i = if decide (i < n) then buf !! (off + i) else None.
Proof. unfold sub. rewrite lookup_take, lookup_drop. done. Qed.

Lemma lookup_upd off data buf i :
  upd off data buf !! i =
    if decide (off ≤ i < off + length data ∧ i < length buf)
    then data !! (i - off) else buf !! i.
Proof.
  unfold upd. case_decide as Hi.
  - apply list_lookup_inserts; lia.
  - destruct (decide (i < off)); [by apply list_lookup_inserts_lt|].
    destruct (decide (off + length data ≤ i));
      [by apply list_lookup_inserts_ge|].
    rewrite !lookup_ge_None_2; [done|lia|rewrite length_inserts; lia].
Qed.

Lemma length_upd off data buf : length (upd off data buf) = length buf.
Proof. apply length_inserts. Qed.

Lemma length_sub off n buf :
  off + n ≤ length buf → length (sub off n buf) = n.
Proof. intros. unfold sub. rewrite length_take, length_drop. lia. Qed.

(** A read that lies inside the last store sees the stored bytes. *)
Lemma sub_upd_inside off n off' data buf :
  off' ≤ off → off + n ≤ off' + length data →
  off' + length data ≤ length buf →
  sub off n (upd off' data buf) = sub (off - off') n data.
Proof.
  intros. apply list_eq; intros i. rewrite !lookup_sub.
  case_decide; [|done]. rewrite lookup_upd.
  rewrite decide_True by lia. f_equal; lia.
Qed.

(** A read that is disjoint from the last store does not see it. *)
Lemma sub_upd_disjoint off n off' data buf :
  off + n ≤ off' ∨ off' + length data ≤ off →
  sub off n (upd off' data buf) = sub off n buf.
Proof.
  intros. apply list_eq; intros i. rewrite !lookup_sub.
  case_decide; [|done]. rewrite lookup_upd.
  rewrite decide_False by lia. done.
Qed.

Lemma sub_all n buf : length buf ≤ n → sub 0 n buf = buf.
Proof. intros. unfold sub. rewrite drop_0. by apply take_ge. Qed.

Lemma sub_split off n m buf :
  sub off (n + m) buf = sub off n buf ++ sub (off + n) m buf.
Proof.
  unfold sub. rewrite <-drop_drop, <-(take_drop n (take (n + m) _)). f_equal.
  - rewrite take_take. f_equal; lia.
  - rewrite <-take_drop_commute. done.
Qed.

Lemma sub_app_l n data buf : n = length data → sub 0 n (data ++ buf) = data.
Proof. intros ->. unfold sub. rewrite drop_0. apply take_app_length. Qed.

Lemma sub_app_r off n data buf :
  off = length data → sub off n (data ++ buf) = sub 0 n buf.
Proof. intros ->. unfold sub. by rewrite drop_app_length, drop_0. Qed.

(** A store at the start of a buffer, as a concatenation. *)
Lemma upd_0_app data buf :
  length data ≤ length buf →
  upd 0 data buf = data ++ drop (length data) buf.
Proof.
  intros. apply list_eq; intros i. rewrite lookup_upd.
  case_decide.
  - rewrite lookup_app_l by lia. f_equal; lia.
  - rewrite lookup_app_r by lia. rewrite lookup_drop.
    destruct (decide (i < length buf)).
    + f_equal; lia.
    + rewrite !lookup_ge_None_2; [done|lia..].
Qed.

Lemma upd_whole data buf : length data = length buf → upd 0 data buf = data.
Proof.
  intros Hl. rewrite upd_0_app by lia. rewrite Hl, drop_all. apply app_nil_r.
Qed.
End Buffers.

(** ** The inputs of the two hashes *)

Section HashInputs.
Context {backend : Backend}.
Implicit Types (mem message point_r pub_key signature : list N).
Implicit Types (workmem : nat) (prehash : bool).

Lemma ed448_r_inputs_eq mem workmem message prehash :
  ed448_r_inputs mem workmem message prehash =
    r_hash_list (sub workmem SX_ED448_SZ mem) message prehash.
Proof. by destruct prehash. Qed.

Lemma ed448_k_inputs_eq mem workmem point_r message prehash :
  ed448_k_inputs mem workmem point_r message prehash =
    k_hash_list (sub 0 SX_ED448_SZ point_r) (sub workmem SX_ED448_SZ mem)
      message prehash.
Proof. by destruct prehash. Qed.

Lemma ed448_verify_inputs_eq pub_key message signature prehash :
  ed448_verify_inputs pub_key message signature prehash =
    k_hash_list (sub 0 SX_ED448_SZ signature) (sub 0 SX_ED448_SZ pub_key)
      message prehash.
Proof. by destruct prehash. Qed.

(** C2, as the driver has it.  Without prehash (pure Ed448,
    [cracen_ed448_sign]) the nonce digest is the hash of
    [[prefix_half; message]]: [dom4] is dropped.  With prehash (Ed448ph,
    both ways of calling [cracen_ed448ph_sign]) it is the hash of
    [[dom4; prefix_half; message]].  [prefix_half], the 57 bytes at
    [workmem], is hashed in both modes, and the digest is stored 114
    bytes behind [workmem]. *)
Theorem ed448_calculate_r_inputs mem workmem message :
  let prefix_half := sub workmem SX_ED448_SZ mem in
  ed448_r_inputs mem workmem message false = [prefix_half; message] ∧
  ed448_r_inputs mem workmem message true = [dom4; prefix_half; message] ∧
  ed448_calculate_r mem workmem message false =
    (let '(status, r) := cracen_hash_all_inputs [prefix_half; message] in
     (status, upd (workmem + SX_ED448_DGST_SZ) r mem)) ∧
  ed448_calculate_r mem workmem message true =
    (let '(status, r) :=
       cracen_hash_all_inputs [dom4; prefix_half; message] in
     (status, upd (workmem + SX_ED448_DGST_SZ) r mem)).
Proof. done. Qed.

(** C3.  The challenge digest of signing is the 114 byte SHAKE256 hash
    of the entries of [{dom4, R, A, message}] from [offset] on: all four
    with prehash, and [R], [A], [message] without. *)
Theorem ed448_calculate_k_inputs mem workmem point_r message prehash :
  let R := sub 0 SX_ED448_SZ point_r in
  let A := sub workmem SX_ED448_SZ mem in
  let offset := if prehash then 0 else 1 in
  let hashed :=
    if prehash then [dom4; R; A; message] else [R; A; message] in
  ed448_k_inputs mem workmem point_r message prehash =
    drop offset [dom4; R; A; message] ∧
  drop offset [dom4; R; A; message] = hashed ∧
  ed448_calculate_k mem workmem point_r message prehash =
    (let '(status, k) := cracen_hash_all_inputs hashed in
     (status, upd workmem k mem)).
Proof. by destruct prehash. Qed.

(** C4.  [ed448_verify_internal] hashes the entries of
    [{dom4, R_enc, pubkey, message}] from the same [offset] on, so on the
    same mode and message, with [R_enc] the point signing holds in
    [point_r] and [pubkey] the public key signing holds at [workmem], the
    challenge digest it computes is the one [ed448_calculate_k] computes
    during signing: both are the result [status, k] of the same hash
    call.  [ed448_verify_internal] returns that status when the hash
    fails, and otherwise the verdict of [sx_ed448_verify] on its [digest]
    array with [k] stored in it, which is [k] itself for a 114 byte
    digest. *)
Theorem ed448_verify_digest_eq_calculate_k
    pub_key message signature prehash digest mem workmem point_r :
  sub 0 SX_ED448_SZ signature = sub 0 SX_ED448_SZ point_r →
  sub 0 SX_ED448_SZ pub_key = sub workmem SX_ED448_SZ mem →
  let offset := if prehash then 0 else 1 in
  ed448_verify_inputs pub_key message signature prehash =
    drop offset
      [dom4; sub 0 SX_ED448_SZ signature; sub 0 SX_ED448_SZ pub_key; message] ∧
  ed448_verify_inputs pub_key message signature prehash =
    ed448_k_inputs mem workmem point_r message prehash ∧
  ∃ status k,
    ed448_verify_digest pub_key message signature prehash digest =
      (status, upd 0 k digest) ∧
    ed448_calculate_k mem workmem point_r message prehash =
      (status, upd workmem k mem) ∧
    cracen_hash_all_inputs
      (ed448_k_inputs mem workmem point_r message prehash) = (status, k) ∧
    ed448_verify_internal pub_key message signature prehash digest =
      (if decide (status ≠ SX_OK) then status
       else sx_ed448_verify (sub 0 SX_ED448_DGST_SZ (upd 0 k digest))
              (sub 0 SX_ED448_PT_SZ pub_key)
              (sub SX_ED448_SZ SX_ED448_SZ signature)
              (sub 0 SX_ED448_PT_SZ signature)) ∧
    (status = SX_OK → length k = SX_ED448_DGST_SZ →
     length digest = SX_ED448_DGST_SZ →
     ed448_verify_internal pub_key message signature prehash digest =
       sx_ed448_verify k (sub 0 SX_ED448_PT_SZ pub_key)
         (sub SX_ED448_SZ SX_ED448_SZ signature)
         (sub 0 SX_ED448_PT_SZ signature)).
Proof.
  intros HR HA offset. split; [by destruct prehash|].
  assert (ed448_verify_inputs pub_key message signature prehash =
          ed448_k_inputs mem workmem point_r message prehash) as Heq.
  { by rewrite ed448_verify_inputs_eq, ed448_k_inputs_eq, HR, HA. }
  split; [done|].
  unfold ed448_verify_internal, ed448_verify_digest, ed448_calculate_k.
  rewrite Heq.
  destruct (cracen_hash_all_inputs _) as [status k]. exists status, k.
  split; [done|]. split; [done|]. split; [done|]. split; [done|].
  intros -> Hk Hg.
  rewrite decide_False by (intros Hne; by apply Hne).
  by rewrite upd_whole, sub_all by lia.
Qed.
End HashInputs.

(** C2 as the specification words it fails: on a one byte message the
    pure mode list is not [[dom4; prefix_half; message]] and the prehash
    list is not [[dom4; message]]. *)
Lemma ed448_r_inputs_not_dom4_first :
  let mem := replicate 114 1%N in
  let message := [2%N] in
  ed448_r_inputs mem 57 message false ≠ [dom4; sub 57 57 mem; message] ∧
  ed448_r_inputs mem 57 message true ≠ [dom4; message].
Proof. split; vm_compute; discriminate. Qed.

Lemma ed448_verify_digest_eq_calculate_k_witness :
  ∃ status k,
    ed448_verify_digest (backend := toy_backend)
      (replicate 57 5%N) [1; 2; 3]%N (replicate 114 3%N) false
      (replicate 114 0%N) = (status, upd 0 k (replicate 114 0%N)) ∧
    ed448_calculate_k (backend := toy_backend)
      (replicate 285 5%N) 57 (replicate 114 3%N) [1; 2; 3]%N false =
      (status, upd 57 k (replicate 285 5%N)) ∧
    cracen_hash_all_inputs (Backend := toy_backend)
      (ed448_k_inputs (replicate 285 5%N) 57 (replicate 114 3%N)
         [1; 2; 3]%N false) = (status, k) ∧
    ed448_verify_internal (backend := toy_backend)
      (replicate 57 5%N) [1; 2; 3]%N (replicate 114 3%N) false
      (replicate 114 0%N) =
      (if decide (status ≠ SX_OK) then status
       else sx_ed448_verify (Backend := toy_backend)
              (sub 0 114 (upd 0 k (replicate 114 0%N)))
              (sub 0 57 (replicate 57 5%N))
              (sub 57 57 (replicate 114 3%N))
              (sub 0 57 (replicate 114 3%N))) ∧
    (status = SX_OK → length k = 114 →
     length (replicate 114 0%N : list N) = 114 →
     ed448_verify_internal (backend := toy_backend)
       (replicate 57 5%N) [1; 2; 3]%N (replicate 114 3%N) false
       (replicate 114 0%N) =
       sx_ed448_verify (Backend := toy_backend) k
         (sub 0 57 (replicate 57 5%N))
         (sub 57 57 (replicate 114 3%N))
         (sub 0 57 (replicate 114 3%N))).
Proof.
  apply (ed448_verify_digest_eq_calculate_k (backend := toy_backend)
           (replicate 57 5%N) [1; 2; 3]%N (replicate 114 3%N) false
           (replicate 114 0%N) (replicate 285 5%N) 57 (replicate 114 3%N));
    reflexivity.
Defined.

(** ** What a failed call leaves in the caller's buffers *)

(** One step of a driver function: name the result of the next primitive
    call, or split on the next status check. *)
Ltac driver_step :=
  first
    [ match goal with
      | |- context [match ?e with (_, _) => _ end] =>
          lazymatch e with
          | context [match _ with (_, _) => _ end] => fail
          | _ => destruct e as [? ?] eqn:?
          end
      end
    | case_decide ].

Section Frame.
Context {backend : Backend}.
Implicit Types (priv_key signature message pub_key : list N).
Implicit Types (workmem pnt_r hashedmessage digest : list N).

Lemma ed448_sign_internal_failure
    priv_key signature message prehash workmem pnt_r :
  (ed448_sign_internal priv_key signature message prehash workmem pnt_r).1
    ≠ SX_OK →
  fr_signature
    (ed448_sign_internal priv_key signature message prehash workmem pnt_r).2
    = signature.
Proof. unfold ed448_sign_internal. repeat driver_step; simpl; done. Qed.

(** C7.  A sign call or a public key derivation that does not return
    [SX_OK] has stored nothing through the caller's [signature] or
    [pub_key] pointer. *)
Theorem no_output_on_failure priv_key signature message is_message pub_key
    hashedmessage workmem pnt_r digest :
  ((cracen_ed448_sign priv_key signature message workmem pnt_r).1 ≠ SX_OK →
   fr_signature
     (cracen_ed448_sign priv_key signature message workmem pnt_r).2
     = signature) ∧
  ((cracen_ed448ph_sign priv_key signature message is_message
      hashedmessage workmem pnt_r).1 ≠ SX_OK →
   fr_signature
     (cracen_ed448ph_sign priv_key signature message is_message
        hashedmessage workmem pnt_r).2 = signature) ∧
  ((cracen_ed448_create_pubkey priv_key pub_key digest).1 ≠ SX_OK →
   fr_pub_key (cracen_ed448_create_pubkey priv_key pub_key digest).2
     = pub_key).
Proof.
  split; [apply ed448_sign_internal_failure|split].
  - unfold cracen_ed448ph_sign. destruct is_message.
    + repeat driver_step; [done|apply ed448_sign_internal_failure].
    + apply ed448_sign_internal_failure.
  - unfold cracen_ed448_create_pubkey. repeat driver_step; simpl; done.
Qed.

(** C10.  Called with [is_message = false], [cracen_ed448ph_sign] and
    [cracen_ed448ph_verify] hand the caller's message, whatever its
    length, to the internal functions as the prehashed message: the
    length is never looked at.  When no primitive reports a fault the
    sign call returns [SX_OK] and the verify call returns the verdict of
    [sx_ed448_verify] on the digest of [[dom4; R; A; message]], for
    messages of every length. *)
Theorem ed448ph_digested_no_length_check priv_key signature message pub_key
    hashedmessage workmem pnt_r message_digest digest :
  cracen_ed448ph_sign priv_key signature message false
      hashedmessage workmem pnt_r =
    ed448_sign_internal priv_key signature message true workmem pnt_r ∧
  cracen_ed448ph_verify pub_key message signature false
      message_digest digest =
    ed448_verify_internal pub_key message signature true digest ∧
  (primitives_succeed backend →
   (cracen_ed448ph_sign priv_key signature message false
      hashedmessage workmem pnt_r).1 = SX_OK ∧
   cracen_ed448ph_verify pub_key message signature false
       message_digest digest =
     sx_ed448_verify
       (sub 0 SX_ED448_DGST_SZ
          (upd 0
             (cracen_hash_all_inputs
                [dom4; sub 0 SX_ED448_SZ signature;
                 sub 0 SX_ED448_SZ pub_key; message]).2
             digest))
       (sub 0 SX_ED448_PT_SZ pub_key)
       (sub SX_ED448_SZ SX_ED448_SZ signature)
       (sub 0 SX_ED448_PT_SZ signature)).
Proof.
  split; [done|]. split; [done|].
  intros (Hh & Hall & Hpt & Hsg). split.
  - simpl. unfold ed448_sign_internal, ed448_calculate_r, ed448_calculate_k.
    repeat driver_step; simpl;
      repeat match goal with
      | Heq : cracen_hash_input ?x = _ |- _ =>
          generalize (Hh x); rewrite Heq; clear Heq; intros ?
      | Heq : cracen_hash_all_inputs ?x = _ |- _ =>
          generalize (Hall x); rewrite Heq; clear Heq; intros ?
      | Heq : sx_ed448_ptmult ?x = _ |- _ =>
          generalize (Hpt x); rewrite Heq; clear Heq; intros ?
      | Heq : sx_ed448_sign ?x ?y ?z = _ |- _ =>
          generalize (Hsg x y z); rewrite Heq; clear Heq; intros ?
      end; simpl in *; congruence.
  - simpl. unfold ed448_verify_internal, ed448_verify_digest.
    rewrite ed448_verify_inputs_eq. simpl.
    pose proof (Hall [dom4; sub 0 57 signature; sub 0 57 pub_key; message])
      as Hs.
    destruct (cracen_hash_all_inputs _) as [status k]. simpl in *.
    by rewrite decide_False by (intros Hne; by apply Hne).
Qed.
End Frame.

(** ** The driver computes the values behind its buffers *)

Section MoreBuffers.
Context {A : Type}.
Implicit Types (buf data : list A) (off n : nat).

(** A 114 byte read is the two 57 byte halves. *)
Lemma sub_digest_halves off buf :
  sub off SX_ED448_DGST_SZ buf =
    sub off SX_ED448_SZ buf ++ sub (off + SX_ED448_SZ) SX_ED448_SZ buf.
Proof. exact (sub_split off 57 57 buf). Qed.

(** Two adjacent stores that fill a buffer. *)
Lemma upd_upd_whole n data1 data2 buf :
  length data1 = n → length buf = n + length data2 →
  upd n data2 (upd 0 data1 buf) = data1 ++ data2.
Proof.
  intros H1 Hb. apply list_eq; intros i. rewrite !lookup_upd, length_upd.
  destruct (decide (i < n)).
  - rewrite decide_False by lia. rewrite decide_True by lia.
    rewrite lookup_app_l by lia. f_equal; lia.
  - rewrite lookup_app_r by lia. rewrite H1. case_decide; [done|].
    rewrite decide_False by lia.
    rewrite !lookup_ge_None_2; [done|lia..].
Qed.

Lemma sub_replicate off n m (x : A) :
  off + n ≤ m → sub off n (replicate m x) = replicate n x.
Proof.
  intros. unfold sub. rewrite drop_replicate, take_replicate.
  f_equal; lia.
Qed.
End MoreBuffers.

(** Side conditions on offsets and lengths. *)
Ltac buf_side :=
  repeat first [rewrite length_upd | rewrite length_app
               | rewrite length_replicate];
  lia.

(** Push the reads through the stores below them. *)
Ltac buf_simpl :=
  repeat
    (match goal with
     | |- context [sub ?off ?n (upd ?off' ?data ?buf)] =>
         first [ rewrite (sub_upd_disjoint off n off' data buf) by buf_side
               | rewrite (sub_upd_inside off n off' data buf) by buf_side ]
     | |- context [sub 0 ?n ?buf] => rewrite (sub_all n buf) by buf_side
     | |- context [sub ?off ?n (replicate ?m ?x)] =>
         rewrite (sub_replicate off n m x) by buf_side
     end;
     cbn [Nat.sub Nat.add]).

Section Values_correct.
#[local] Opaque sub upd.
Context {backend : Backend} {backend_ok : BackendOK backend}.
Implicit Types (priv_key signature message pub_key : list N).
Implicit Types (workmem pnt_r hashedmessage digest : list N).

Lemma ed448_sign_internal_value
    priv_key signature message prehash workmem pnt_r :
  length workmem = WORKMEM_SZ → length pnt_r = SX_ED448_DGST_SZ →
  let v := sign_value priv_key message prehash in
  (ed448_sign_internal priv_key signature message prehash workmem pnt_r).1
    = v.1 ∧
  (v.1 = SX_OK →
   length v.2 = SX_ED448_DGST_SZ ∧
   (ed448_sign_internal priv_key signature message prehash workmem pnt_r).2
     = SignFrame (upd 0 v.2 signature) (replicate WORKMEM_SZ 0%N) v.2).
Proof.
  intros Hw Hp. unfold ed448_sign_internal, sign_value.
  unfold ed448_calculate_r, ed448_calculate_k, safe_memzero, safe_memset,
    memcpy.
  cbn [Nat.add Nat.sub Nat.mul Nat.min].
  destruct (cracen_hash_input _) as [st d] eqn:Hd.
  case_decide as Hst; [by simpl|]. subst st.
  pose proof (hash_input_length _ _ Hd) as Hld.
  rewrite ed448_r_inputs_eq. buf_simpl.
  destruct (cracen_hash_all_inputs _) as [st r] eqn:Hr.
  case_decide as Hst; [by simpl|]. subst st.
  pose proof (hash_all_inputs_length _ _ Hr) as Hlr.
  buf_simpl.
  destruct (sx_ed448_ptmult r) as [st R] eqn:HR.
  case_decide as Hst; [by simpl|]. subst st.
  pose proof (ptmult_length _ _ HR) as HlR.
  buf_simpl.
  assert (length (decode_scalar_448 (sub 0 57 d)) = 57) as Hls.
  { apply decode_scalar_length, length_sub. lia. }
  set (s := decode_scalar_448 (sub 0 57 d)) in *.
  rewrite sub_digest_halves. buf_simpl.
  destruct (sx_ed448_ptmult (s ++ _)) as [st A] eqn:HA.
  case_decide as Hst; [by simpl|]. subst st.
  pose proof (ptmult_length _ _ HA) as HlA.
  rewrite ed448_k_inputs_eq. buf_simpl.
  destruct (cracen_hash_all_inputs (k_hash_list _ _ _ _)) as [st k] eqn:Hk.
  case_decide as Hst; [by simpl|]. subst st.
  pose proof (hash_all_inputs_length _ _ Hk) as Hlk.
  buf_simpl.
  destruct (sx_ed448_sign k r s) as [st S_enc] eqn:HS.
  case_decide as Hst; [by simpl|]. subst st.
  pose proof (sign_length _ _ _ _ HS) as HlS.
  cbn [fst snd]. split; [done|]. intros _.
  rewrite length_app. split; [lia|].
  rewrite (upd_upd_whole 57 R S_enc) by lia.
  rewrite sub_all by (rewrite length_app; lia).
  rewrite (upd_whole (replicate _ 0%N)) by buf_side. done.
Qed.

Lemma cracen_ed448_create_pubkey_value priv_key pub_key digest :
  length digest = SX_ED448_DGST_SZ →
  let v := pubkey_value priv_key in
  (cracen_ed448_create_pubkey priv_key pub_key digest).1 = v.1 ∧
  (v.1 = SX_OK →
   length v.2 = SX_ED448_SZ ∧
   (cracen_ed448_create_pubkey priv_key pub_key digest).2
     = PubkeyFrame (upd 0 v.2 pub_key) (replicate SX_ED448_DGST_SZ 0%N)).
Proof.
  intros Hg. unfold cracen_ed448_create_pubkey, pubkey_value.
  unfold safe_memzero, safe_memset, memcpy.
  cbn [Nat.add Nat.sub Nat.mul Nat.min].
  destruct (cracen_hash_input _) as [st d] eqn:Hd.
  case_decide as Hst; [by simpl|]. subst st.
  pose proof (hash_input_length _ _ Hd) as Hld.
  buf_simpl.
  assert (length (decode_scalar_448 (sub 0 57 d)) = 57) as Hls.
  { apply decode_scalar_length, length_sub. lia. }
  set (s := decode_scalar_448 (sub 0 57 d)) in *.
  rewrite (upd_upd_whole 57 s (replicate 57 0%N)) by buf_side.
  destruct (sx_ed448_ptmult (s ++ _)) as [st A] eqn:HA.
  case_decide as Hst; [by simpl|]. subst st.
  pose proof (ptmult_length _ _ HA) as HlA.
  buf_simpl. cbn [fst snd]. split; [done|]. intros _. split; [done|].
  rewrite (upd_whole (replicate _ 0%N)) by buf_side. done.
Qed.
End Values_correct.

(** ** Little-endian numbers *)

Lemma le_app_zeros l n : le (l ++ replicate n 0%N) = le l.
Proof.
  induction l as [|b l IH]; simpl.
  - induction n as [|n IHn]; simpl; [done|]. rewrite IHn. lia.
  - by rewrite IH.
Qed.

Lemma length_enc_le n v : length (enc_le n v) = n.
Proof. revert v. induction n as [|n IH]; intros v; simpl; [done|]. by rewrite IH. Qed.

Lemma le_enc_le n v : (v < 256 ^ N.of_nat n)%N → le (enc_le n v) = v.
Proof.
  revert v. induction n as [|n IH]; intros v Hv.
  - simpl in *. lia.
  - cbn [enc_le le foldr]. fold (le (enc_le n (v / 256))). rewrite IH.
    + pose proof (N.div_mod v 256). lia.
    + rewrite Nat2N.inj_succ, N.pow_succ_r' in Hv.
      apply N.Div0.div_lt_upper_bound. lia.
Qed.

Lemma length_decode_scalar_448_rfc k :
  length (decode_scalar_448_rfc k) = length k.
Proof.
  unfold decode_scalar_448_rfc. by rewrite length_insert, !length_alter.
Qed.

(** ** Scalar multiplication *)

Section CurveTheory.
Context {curve : Curve} {laws : CurveLaws curve}.
Implicit Types (P Q : G) (n m : N).

Lemma smul_0 P : smul 0 P = gzero.
Proof. done. Qed.

Lemma smul_succ n P : smul (N.succ n) P = gadd P (smul n P).
Proof.
  destruct n as [|p]; simpl.
  - by rewrite gadd_zero_r.
  - apply Pos.iter_op_succ. intros. apply gadd_assoc.
Qed.

Lemma smul_add n m P : smul (n + m) P = gadd (smul n P) (smul m P).
Proof.
  induction n as [|n IH] using N.peano_ind.
  - by rewrite N.add_0_l, smul_0, gadd_zero_l.
  - by rewrite N.add_succ_l, !smul_succ, IH, gadd_assoc.
Qed.

Lemma smul_zero n : smul n gzero = gzero.
Proof.
  induction n as [|n IH] using N.peano_ind; [done|].
  by rewrite smul_succ, IH, gadd_zero_l.
Qed.

Lemma smul_mul n m P : smul (n * m) P = smul n (smul m P).
Proof.
  induction n as [|n IH] using N.peano_ind; [done|].
  rewrite N.mul_succ_l, N.add_comm, smul_add, IH. by rewrite smul_succ.
Qed.

(** [B] has order [L]: scalars can be reduced. *)
Lemma smul_mod_B n : smul (n mod L) B = smul n B.
Proof.
  rewrite (N.div_mod n L) at 2 by (pose proof L_pos; lia).
  rewrite smul_add, (N.mul_comm L), smul_mul, smul_order, smul_zero.
  by rewrite gadd_zero_l.
Qed.

(** The equation verification checks, for a signature made with nonce
    [r], challenge [k] and secret scalar [s]. *)
Lemma smul_signature r k s :
  smul ((r + k * s) mod L) B =
    gadd (smul (r mod L) B) (smul k (smul (s mod L) B)).
Proof. by rewrite !smul_mod_B, smul_add, smul_mul. Qed.

#[local] Instance spec_backend_ok : BackendOK spec_backend.
Proof.
  split.
  - intros m d Heq. apply (f_equal snd) in Heq.
    cbn [snd cracen_hash_input cracen_hash_all_inputs sx_ed448_ptmult
           sx_ed448_sign spec_backend] in Heq. subst.
    apply length_shake256_114.
  - intros ms d Heq. apply (f_equal snd) in Heq.
    cbn [snd cracen_hash_input cracen_hash_all_inputs sx_ed448_ptmult
           sx_ed448_sign spec_backend] in Heq. subst.
    apply length_shake256_114.
  - intros d p Heq. apply (f_equal snd) in Heq.
    cbn [snd cracen_hash_input cracen_hash_all_inputs sx_ed448_ptmult
           sx_ed448_sign spec_backend] in Heq. subst.
    apply length_enc_pt.
  - intros k r s S_enc Heq. apply (f_equal snd) in Heq.
    cbn [snd cracen_hash_input cracen_hash_all_inputs sx_ed448_ptmult
           sx_ed448_sign spec_backend] in Heq. subst.
    apply length_enc_le.
  - intros k Hk. cbn [decode_scalar_448 spec_backend].
    by rewrite length_decode_scalar_448_rfc.
Qed.
End CurveTheory.

(** The small instance satisfies what the spec assumes. *)
Lemma toy_curve_laws : CurveLaws toy_curve.
Proof.
  split.
  - intros [] [] []; reflexivity.
  - intros []; reflexivity.
  - intros []; reflexivity.
  - reflexivity.
  - reflexivity.
  - by vm_compute.
  - intros P. reflexivity.
  - intros []; reflexivity.
  - intros m. unfold shake256_114, toy_curve, toy_hash.
    by rewrite length_fmap, length_seq.
Defined.

Lemma toy_backend_ok : BackendOK toy_backend.
Proof. apply (spec_backend_ok (laws := toy_curve_laws)). Defined.

(** ** The signature a successful call stores *)

Section SignValue.
Context {backend : Backend} {backend_ok : BackendOK backend}.
Implicit Types (priv_key signature message : list N) (prehash : bool).

(** The primitive calls behind a successful [sign_value]. *)
Lemma sign_value_ok priv_key message prehash :
  (sign_value priv_key message prehash).1 = SX_OK →
  ∃ d r R A k S_enc,
    let s := decode_scalar_448 (sub 0 SX_ED448_SZ d) in
    cracen_hash_input (sub 0 SX_ED448_SZ priv_key) = (SX_OK, d) ∧
    cracen_hash_all_inputs
      (r_hash_list (sub SX_ED448_SZ SX_ED448_SZ d) message prehash)
      = (SX_OK, r) ∧
    sx_ed448_ptmult r = (SX_OK, R) ∧
    sx_ed448_ptmult (s ++ replicate SX_ED448_SZ 0%N) = (SX_OK, A) ∧
    cracen_hash_all_inputs (k_hash_list R A message prehash) = (SX_OK, k) ∧
    sx_ed448_sign k r s = (SX_OK, S_enc) ∧
    (sign_value priv_key message prehash).2 = R ++ S_enc.
Proof.
  unfold sign_value.
  destruct (cracen_hash_input _) as [st d] eqn:Hd.
  case_decide as Hst; [done|]. subst st.
  destruct (cracen_hash_all_inputs _) as [st r] eqn:Hr.
  case_decide as Hst; [done|]. subst st.
  destruct (sx_ed448_ptmult r) as [st R] eqn:HR.
  case_decide as Hst; [done|]. subst st.
  destruct (sx_ed448_ptmult (_ ++ _)) as [st A] eqn:HA.
  case_decide as Hst; [done|]. subst st.
  destruct (cracen_hash_all_inputs (k_hash_list _ _ _ _)) as [st k] eqn:Hk.
  case_decide as Hst; [done|]. subst st.
  destruct (sx_ed448_sign _ _ _) as [st S_enc] eqn:HS.
  case_decide as Hst; [done|]. subst st.
  intros _. by exists d, r, R, A, k, S_enc.
Qed.

(** What a call stores through [signature] depends on the key, the
    message and the mode only. *)
Lemma ed448_sign_internal_stores
    priv_key signature message prehash workmem pnt_r :
  length workmem = WORKMEM_SZ → length pnt_r = SX_ED448_DGST_SZ →
  let v := sign_value priv_key message prehash in
  let res :=
    ed448_sign_internal priv_key signature message prehash workmem pnt_r in
  res.1 = v.1 ∧
  (v.1 = SX_OK →
   length v.2 = SX_ED448_DGST_SZ ∧ fr_signature res.2 = upd 0 v.2 signature) ∧
  (v.1 ≠ SX_OK → fr_signature res.2 = signature).
Proof.
  intros Hw Hp v res.
  destruct (ed448_sign_internal_value priv_key signature message prehash
              workmem pnt_r Hw Hp) as [Hst Hv].
  fold v res in Hst, Hv. split; [done|]. split.
  - intros Hok. destruct (Hv Hok) as [Hl ->]. done.
  - intros Hne. apply ed448_sign_internal_failure.
    change (res.1 ≠ SX_OK). by rewrite Hst.
Qed.
End SignValue.

Section SignClaims.
Context {backend : Backend} {backend_ok : BackendOK backend}.
Implicit Types (priv_key signature message : list N) (prehash : bool).

(** C9.  Pure mode signing is deterministic.  Two calls of
    [cracen_ed448_sign] on the same key and message return the same
    status, whatever the stack and the signature buffers held before,
    and when they succeed they have stored the same 114 bytes. *)
Theorem cracen_ed448_sign_deterministic
    priv_key message sig1 sig2 w1 w2 p1 p2 :
  length w1 = WORKMEM_SZ → length w2 = WORKMEM_SZ →
  length p1 = SX_ED448_DGST_SZ → length p2 = SX_ED448_DGST_SZ →
  let res1 := cracen_ed448_sign priv_key sig1 message w1 p1 in
  let res2 := cracen_ed448_sign priv_key sig2 message w2 p2 in
  res1.1 = res2.1 ∧
  (res1.1 = SX_OK →
   ∃ v, length v = SX_ED448_DGST_SZ ∧
        fr_signature res1.2 = upd 0 v sig1 ∧
        fr_signature res2.2 = upd 0 v sig2).
Proof.
  intros Hw1 Hw2 Hp1 Hp2 res1 res2. subst res1 res2.
  unfold cracen_ed448_sign.
  destruct (ed448_sign_internal_stores priv_key sig1 message false
              w1 p1 Hw1 Hp1) as (Hs1 & Hok1 & _).
  destruct (ed448_sign_internal_stores priv_key sig2 message false
              w2 p2 Hw2 Hp2) as (Hs2 & Hok2 & _).
  split; [congruence|]. intros Hok. rewrite Hs1 in Hok.
  destruct (Hok1 Hok) as [Hl E1]. destruct (Hok2 Hok) as [_ E2].
  eauto.
Qed.

(** C6.  Signing a raw message with [is_message = true] and signing its
    114 byte digest with [is_message = false] return the same status
    and store the same signature. *)
Theorem cracen_ed448ph_sign_prehash_equiv
    priv_key message d sig1 sig2 hm1 hm2 w1 w2 p1 p2 :
  length hm1 = SX_ED448_DGST_SZ →
  length w1 = WORKMEM_SZ → length w2 = WORKMEM_SZ →
  length p1 = SX_ED448_DGST_SZ → length p2 = SX_ED448_DGST_SZ →
  cracen_hash_input message = (SX_OK, d) →
  let res1 := cracen_ed448ph_sign priv_key sig1 message true hm1 w1 p1 in
  let res2 := cracen_ed448ph_sign priv_key sig2 d false hm2 w2 p2 in
  res1.1 = res2.1 ∧
  (res1.1 = SX_OK →
   ∃ v, length v = SX_ED448_DGST_SZ ∧
        fr_signature res1.2 = upd 0 v sig1 ∧
        fr_signature res2.2 = upd 0 v sig2) ∧
  (sig1 = sig2 → fr_signature res1.2 = fr_signature res2.2).
Proof.
  intros Hhm Hw1 Hw2 Hp1 Hp2 Hd res1 res2.
  pose proof (hash_input_length _ _ Hd) as Hld.
  assert (res1 = ed448_sign_internal priv_key sig1 d true w1 p1) as E1.
  { unfold res1, cracen_ed448ph_sign. rewrite Hd.
    rewrite decide_False by (intros Hne; by apply Hne).
    by rewrite upd_whole, sub_all by lia. }
  assert (res2 = ed448_sign_internal priv_key sig2 d true w2 p2) as E2
    by done.
  destruct (ed448_sign_internal_stores priv_key sig1 d true
              w1 p1 Hw1 Hp1) as (Hs1 & Hok1 & Hf1).
  destruct (ed448_sign_internal_stores priv_key sig2 d true
              w2 p2 Hw2 Hp2) as (Hs2 & Hok2 & Hf2).
  rewrite <-E1 in Hs1, Hok1, Hf1. rewrite <-E2 in Hs2, Hok2, Hf2.
  split; [congruence|]. split.
  - intros Hok. rewrite Hs1 in Hok.
    destruct (Hok1 Hok) as [Hl F1]. destruct (Hok2 Hok) as [_ F2]. eauto.
  - intros <-.
    destruct (decide ((sign_value priv_key d true).1 = SX_OK)) as [Hok|Hne].
    + destruct (Hok1 Hok) as [_ ->]. by destruct (Hok2 Hok) as [_ ->].
    + by rewrite Hf1, Hf2.
Qed.

(** C8.  A sign call that returns [SX_OK] has stored exactly 114 bytes
    through [signature]: the 57 byte encoding of [R = [r]B] followed by
    the 57 byte encoding of [S = (r + k*s) mod L], with [r] the nonce
    digest, [k] the challenge digest and [s] the decoded secret scalar,
    all read as little-endian numbers.  The rest of the caller's buffer
    is as it was. *)
Theorem ed448_sign_internal_layout {curve : Curve} {laws : CurveLaws curve}
    priv_key signature message prehash workmem pnt_r :
  curve_contract curve backend →
  length workmem = WORKMEM_SZ → length pnt_r = SX_ED448_DGST_SZ →
  SX_ED448_DGST_SZ ≤ length signature →
  let res :=
    ed448_sign_internal priv_key signature message prehash workmem pnt_r in
  res.1 = SX_OK →
  ∃ d r_digest k_digest,
    let s := le (decode_scalar_448 (sub 0 SX_ED448_SZ d)) in
    let r := le r_digest in
    let k := le k_digest in
    let R := enc_pt (smul r B) in
    let A := enc_pt (smul s B) in
    let S_enc := enc_le SX_ED448_SZ ((r + k * s) mod L) in
    cracen_hash_input (sub 0 SX_ED448_SZ priv_key) = (SX_OK, d) ∧
    cracen_hash_all_inputs
      (r_hash_list (sub SX_ED448_SZ SX_ED448_SZ d) message prehash)
      = (SX_OK, r_digest) ∧
    cracen_hash_all_inputs (k_hash_list R A message prehash)
      = (SX_OK, k_digest) ∧
    length R = SX_ED448_SZ ∧ length S_enc = SX_ED448_SZ ∧
    le S_enc = ((r + k * s) mod L)%N ∧
    fr_signature res.2 = R ++ S_enc ++ drop SX_ED448_DGST_SZ signature ∧
    length (fr_signature res.2) = length signature.
Proof.
  intros [Hpt Hsg] Hw Hp Hsig res Hok.
  destruct (ed448_sign_internal_stores priv_key signature message prehash
              workmem pnt_r Hw Hp) as (Hs & Hv & _).
  subst res. rewrite Hs in Hok. destruct (Hv Hok) as [Hl Hsto].
  destruct (sign_value_ok _ _ _ Hok)
    as (d & r & R & A & k & S_enc & Hd & Hr & HR & HA & Hk & HS & Hval).
  cbv zeta in *.
  pose proof (ptmult_length _ _ HR) as HlR.
  apply Hpt in HR, HA. apply Hsg in HS.
  rewrite le_app_zeros in HA. rewrite !smul_mod_B in HR, HA.
  subst R A S_enc.
  exists d, r, k. cbv zeta.
  split; [done|]. split; [done|]. split; [done|]. split; [done|].
  split; [apply length_enc_le|]. repeat split.
  - apply le_enc_le. change (N.of_nat 57) with 57%N.
    pose proof L_bound. pose proof L_pos.
    pose proof (N.mod_upper_bound
                  (le r + le k * le (decode_scalar_448 (sub 0 57 d))) L).
    lia.
  - rewrite Hval in Hsto, Hl. rewrite Hsto, upd_0_app by lia.
    by rewrite Hl, <-app_assoc.
  - rewrite Hsto. apply length_upd.
Qed.
End SignClaims.

(** ** Signing and verifying with the primitives of the specification *)

Section RoundTrip.
Context {curve : Curve} {laws : CurveLaws curve}.
Implicit Types (priv_key signature message pub_key : list N).

Lemma spec_sign_value priv_key message prehash :
  let d := shake256_114 (sub 0 SX_ED448_SZ priv_key) in
  let s := decode_scalar_448_rfc (sub 0 SX_ED448_SZ d) in
  let r :=
    shake256_114
      (concat (r_hash_list (sub SX_ED448_SZ SX_ED448_SZ d) message prehash)) in
  let R := enc_pt (smul (le r mod L) B) in
  let A := enc_pt (smul (le (s ++ replicate SX_ED448_SZ 0%N) mod L) B) in
  let k := shake256_114 (concat (k_hash_list R A message prehash)) in
  sign_value (backend := spec_backend) priv_key message prehash =
    (SX_OK, R ++ enc_le SX_ED448_SZ ((le r + le k * le s) mod L)).
Proof. reflexivity. Qed.

Lemma spec_pubkey_value priv_key :
  let d := shake256_114 (sub 0 SX_ED448_SZ priv_key) in
  let s := decode_scalar_448_rfc (sub 0 SX_ED448_SZ d) in
  pubkey_value (backend := spec_backend) priv_key =
    (SX_OK, enc_pt (smul (le (s ++ replicate SX_ED448_SZ 0%N) mod L) B)).
Proof. reflexivity. Qed.

(** C5.  With a hash engine and curve operations as the specification
    describes them, key derivation and pure mode signing return
    [SX_OK], and [cracen_ed448_verify] accepts the signature of any
    message, the empty one included, under the derived public key. *)
Theorem cracen_ed448_sign_verify_roundtrip
    priv_key message signature pub_key workmem pnt_r digest digest' :
  length workmem = WORKMEM_SZ → length pnt_r = SX_ED448_DGST_SZ →
  length digest = SX_ED448_DGST_SZ → length digest' = SX_ED448_DGST_SZ →
  SX_ED448_DGST_SZ ≤ length signature → SX_ED448_SZ ≤ length pub_key →
  let derived :=
    cracen_ed448_create_pubkey (backend := spec_backend)
      priv_key pub_key digest in
  let signed :=
    cracen_ed448_sign (backend := spec_backend)
      priv_key signature message workmem pnt_r in
  derived.1 = SX_OK ∧ signed.1 = SX_OK ∧
  cracen_ed448_verify (backend := spec_backend)
    (fr_pub_key derived.2) message (fr_signature signed.2) digest' = SX_OK.
Proof.
  intros Hw Hp Hg Hg' Hsig Hpub derived signed.
  destruct (cracen_ed448_create_pubkey_value (backend_ok := spec_backend_ok)
              priv_key pub_key digest Hg) as [Hd1 Hd2].
  destruct (ed448_sign_internal_value (backend_ok := spec_backend_ok)
              priv_key signature message false workmem pnt_r Hw Hp)
    as [Hs1 Hs2].
  rewrite spec_pubkey_value in Hd1, Hd2.
  rewrite spec_sign_value in Hs1, Hs2.
  cbv zeta in *. cbn [fst snd] in *.
  destruct (Hd2 eq_refl) as [_ Ed]. destruct (Hs2 eq_refl) as [_ Es].
  clear Hd2 Hs2.
  split; [done|]. split; [done|].
  subst derived signed. unfold cracen_ed448_sign. rewrite Ed, Es.
  cbn [fr_pub_key fr_signature].
  set (d := shake256_114 (sub 0 57 priv_key)).
  set (s := decode_scalar_448_rfc (sub 0 57 d)).
  set (r := shake256_114 (concat (r_hash_list (sub 57 57 d) message false))).
  rewrite le_app_zeros. fold s.
  set (R := enc_pt (smul (le r mod L) B)).
  set (A := enc_pt (smul (le s mod L) B)).
  set (k := shake256_114 (concat (k_hash_list R A message false))).
  set (S_enc := enc_le 57 ((le r + le k * le s) mod L)).
  assert (length R = 57) as HlR by apply length_enc_pt.
  assert (length A = 57) as HlA by apply length_enc_pt.
  assert (length S_enc = 57) as HlS by apply length_enc_le.
  assert (sub 0 57 (upd 0 (R ++ S_enc) signature) = R) as ER.
  { rewrite sub_upd_inside by (rewrite ?length_app; lia).
    by apply sub_app_l. }
  assert (sub 57 57 (upd 0 (R ++ S_enc) signature) = S_enc) as ES.
  { rewrite sub_upd_inside by (rewrite ?length_app; lia).
    rewrite sub_app_r by done. apply sub_all. lia. }
  assert (sub 0 57 (upd 0 A pub_key) = A) as EA.
  { rewrite sub_upd_inside by lia. apply sub_all. lia. }
  unfold cracen_ed448_verify, ed448_verify_internal, ed448_verify_digest.
  rewrite ed448_verify_inputs_eq, ER, ES, EA.
  cbn [cracen_hash_all_inputs sx_ed448_verify spec_backend]. fold k.
  rewrite decide_False by (intros Hne; by apply Hne).
  rewrite upd_whole by (rewrite Hg'; apply length_shake256_114).
  rewrite sub_all by (unfold k; by rewrite length_shake256_114).
  unfold R at 1, A at 1. rewrite !dec_enc_pt.
  rewrite decide_True; [done|].
  unfold S_enc. rewrite le_enc_le.
  - apply smul_signature.
  - change (N.of_nat 57) with 57%N. pose proof L_bound. pose proof L_pos.
    pose proof (N.mod_upper_bound (le r + le k * le s) L). lia.
Qed.
End RoundTrip.

(** ** A fault after the secret scalar has been decoded *)

Section Residue.
Context {backend : Backend} {backend_ok : BackendOK backend}.
Implicit Types (priv_key signature message pub_key : list N).
#[local] Opaque sub upd.

(** X7.  Once the private key has been hashed, every error return of
    [ed448_sign_internal] leaves the scalar half of the key digest, raw or
    decoded, in the first 57 bytes of [workmem]. *)
Lemma ed448_sign_internal_error_residue
    priv_key signature message prehash workmem pnt_r d :
  length workmem = WORKMEM_SZ →
  cracen_hash_input (sub 0 SX_ED448_SZ priv_key) = (SX_OK, d) →
  let res :=
    ed448_sign_internal priv_key signature message prehash workmem pnt_r in
  res.1 ≠ SX_OK →
  sub 0 SX_ED448_SZ (fr_workmem res.2) = sub 0 SX_ED448_SZ d ∨
  sub 0 SX_ED448_SZ (fr_workmem res.2)
    = decode_scalar_448 (sub 0 SX_ED448_SZ d).
Proof.
  intros Hw Hd res. subst res.
  pose proof (hash_input_length _ _ Hd) as Hld.
  assert (length (decode_scalar_448 (sub 0 57 d)) = 57) as Hls.
  { apply decode_scalar_length, length_sub. lia. }
  unfold ed448_sign_internal. rewrite Hd.
  rewrite decide_False by (intros Hne; by apply Hne).
  unfold ed448_calculate_r, ed448_calculate_k, safe_memzero, safe_memset,
    memcpy.
  cbn [Nat.add Nat.sub Nat.mul Nat.min].
  repeat driver_step; cbn [fst snd fr_workmem]; intros Hne; try done;
    buf_simpl; auto.
Qed.

(** X8.  Once the private key has been hashed, the error return of
    [cracen_ed448_create_pubkey] leaves the decoded secret scalar in the
    first 57 bytes of [digest]. *)
Lemma cracen_ed448_create_pubkey_error_residue priv_key pub_key digest d :
  length digest = SX_ED448_DGST_SZ →
  cracen_hash_input (sub 0 SX_ED448_SZ priv_key) = (SX_OK, d) →
  let res := cracen_ed448_create_pubkey priv_key pub_key digest in
  res.1 ≠ SX_OK →
  sub 0 SX_ED448_SZ (fr_digest res.2)
    = decode_scalar_448 (sub 0 SX_ED448_SZ d).
Proof.
  intros Hg Hd res. subst res.
  pose proof (hash_input_length _ _ Hd) as Hld.
  assert (length (decode_scalar_448 (sub 0 57 d)) = 57) as Hls.
  { apply decode_scalar_length, length_sub. lia. }
  unfold cracen_ed448_create_pubkey. rewrite Hd.
  rewrite decide_False by (intros Hne; by apply Hne).
  unfold safe_memzero, safe_memset, memcpy.
  cbn [Nat.add Nat.sub Nat.mul Nat.min].
  repeat driver_step; cbn [fst snd fr_digest]; intros Hne; try done.
  by buf_simpl.
Qed.
End Residue.


(** C1, on the code.  When [sx_ed448_sign] reports a fault,
    [cracen_ed448_sign] returns that status with the decoded secret scalar
    still in the first 57 bytes of [workmem]; when [sx_ed448_ptmult]
    reports a fault, [cracen_ed448_create_pubkey] returns with the secret
    scalar still in the first 57 bytes of [digest].  Both stack arrays
    were zero on entry, and neither is zero on return. *)
Theorem early_return_leaves_secret_scalar :
  let secret_scalar :=
    decode_scalar_448_rfc (sub 0 SX_ED448_SZ (toy_hash sample_seed)) in
  let signed :=
    cracen_ed448_sign (backend := faulty_sign_backend) sample_seed
      sample_signature_buffer sample_message
      (stack_zero WORKMEM_SZ) (stack_zero SX_ED448_DGST_SZ) in
  let derived :=
    cracen_ed448_create_pubkey (backend := faulty_ptmult_backend) sample_seed
      sample_pub_key_buffer (stack_zero SX_ED448_DGST_SZ) in
  signed.1 = SX_ERR_PLATFORM_ERROR ∧
  sub 0 SX_ED448_SZ (fr_workmem signed.2) = secret_scalar ∧
  fr_workmem signed.2 ≠ stack_zero WORKMEM_SZ ∧
  derived.1 = SX_ERR_PLATFORM_ERROR ∧
  sub 0 SX_ED448_SZ (fr_digest derived.2) = secret_scalar ∧
  fr_digest derived.2 ≠ stack_zero SX_ED448_DGST_SZ.
Proof. vm_compute. repeat split; discriminate. Qed.

(** ** The theorems on the sample inputs *)

Lemma spec_backend_contract {curve : Curve} : curve_contract curve spec_backend.
Proof.
  split.
  - intros d p Heq. apply (f_equal snd) in Heq.
    cbn [snd sx_ed448_ptmult spec_backend] in Heq. by subst.
  - intros k r s S_enc Heq. apply (f_equal snd) in Heq.
    cbn [snd sx_ed448_sign spec_backend] in Heq. by subst.
Defined.

Lemma toy_primitives_succeed : primitives_succeed toy_backend.
Proof. repeat split. Defined.

Lemma no_output_on_failure_witness :
  fr_signature
    (cracen_ed448_sign (backend := faulty_ptmult_backend) sample_seed
       sample_signature_buffer sample_message
       (stack_junk 285) (stack_junk 114)).2 = sample_signature_buffer ∧
  fr_signature
    (cracen_ed448ph_sign (backend := faulty_ptmult_backend) sample_seed
       sample_signature_buffer sample_message true
       (stack_junk 114) (stack_junk 285) (stack_junk 114)).2
    = sample_signature_buffer ∧
  fr_pub_key
    (cracen_ed448_create_pubkey (backend := faulty_ptmult_backend)
       sample_seed sample_pub_key_buffer (stack_junk 114)).2
    = sample_pub_key_buffer.
Proof.
  destruct (no_output_on_failure (backend := faulty_ptmult_backend)
              sample_seed sample_signature_buffer sample_message true
              sample_pub_key_buffer (stack_junk 114) (stack_junk 285)
              (stack_junk 114) (stack_junk 114)) as (H1 & H2 & H3).
  split; [|split]; [apply H1|apply H2|apply H3]; vm_compute; discriminate.
Defined.

Lemma ed448ph_digested_no_length_check_witness :
  (cracen_ed448ph_sign (backend := toy_backend) sample_seed
     sample_signature_buffer sample_message false
     (stack_junk 114) (stack_junk 285) (stack_junk 114)).1 = SX_OK.
Proof.
  apply (ed448ph_digested_no_length_check (backend := toy_backend)
           sample_seed sample_signature_buffer sample_message
           sample_pub_key_buffer (stack_junk 114) (stack_junk 285)
           (stack_junk 114) (stack_junk 114) (stack_junk 114)).
  apply toy_primitives_succeed.
Defined.

Lemma cracen_ed448_sign_deterministic_witness :
  let res1 :=
    cracen_ed448_sign (backend := toy_backend) sample_seed
      sample_signature_buffer sample_message
      (stack_zero 285) (stack_zero 114) in
  let res2 :=
    cracen_ed448_sign (backend := toy_backend) sample_seed
      (stack_junk 114) sample_message (stack_junk 285) (stack_junk 114) in
  res1.1 = res2.1 ∧
  (res1.1 = SX_OK →
   ∃ v, length v = 114 ∧
        fr_signature res1.2 = upd 0 v sample_signature_buffer ∧
        fr_signature res2.2 = upd 0 v (stack_junk 114)).
Proof.
  apply (cracen_ed448_sign_deterministic (backend_ok := toy_backend_ok));
    reflexivity.
Defined.

Lemma cracen_ed448ph_sign_prehash_equiv_witness :
  let res1 :=
    cracen_ed448ph_sign (backend := toy_backend) sample_seed
      sample_signature_buffer sample_message true
      (stack_junk 114) (stack_zero 285) (stack_zero 114) in
  let res2 :=
    cracen_ed448ph_sign (backend := toy_backend) sample_seed
      sample_signature_buffer (toy_hash sample_message) false
      (stack_zero 114) (stack_junk 285) (stack_junk 114) in
  res1.1 = res2.1 ∧
  (res1.1 = SX_OK →
   ∃ v, length v = 114 ∧
        fr_signature res1.2 = upd 0 v sample_signature_buffer ∧
        fr_signature res2.2 = upd 0 v sample_signature_buffer) ∧
  (sample_signature_buffer = sample_signature_buffer →
   fr_signature res1.2 = fr_signature res2.2).
Proof.
  apply (cracen_ed448ph_sign_prehash_equiv (backend_ok := toy_backend_ok));
    reflexivity.
Defined.

Lemma ed448_sign_internal_layout_witness :
  let res :=
    ed448_sign_internal (backend := toy_backend) sample_seed
      sample_signature_buffer sample_message false
      (stack_junk 285) (stack_junk 114) in
  ∃ d r_digest k_digest,
    let s := le (decode_scalar_448_rfc (sub 0 57 d)) in
    let r := le r_digest in
    let k := le k_digest in
    let R := enc_pt (Curve := toy_curve) (smul r B) in
    let A := enc_pt (Curve := toy_curve) (smul s B) in
    let S_enc := enc_le 57 ((r + k * s) mod 7) in
    toy_hash (sub 0 57 sample_seed) = d ∧
    toy_hash (concat (r_hash_list (sub 57 57 d) sample_message false))
      = r_digest ∧
    toy_hash (concat (k_hash_list R A sample_message false)) = k_digest ∧
    length R = 57 ∧ length S_enc = 57 ∧
    le S_enc = ((r + k * s) mod 7)%N ∧
    fr_signature res.2 = R ++ S_enc ++ drop 114 sample_signature_buffer ∧
    length (fr_signature res.2) = length sample_signature_buffer.
Proof.
  destruct (ed448_sign_internal_layout (backend_ok := toy_backend_ok)
              (laws := toy_curve_laws) sample_seed sample_signature_buffer
              sample_message false (stack_junk 285) (stack_junk 114))
    as (d & r & k & Hd & Hr & Hk & Hrest).
  - apply spec_backend_contract.
  - reflexivity.
  - reflexivity.
  - vm_compute. lia.
  - vm_compute. reflexivity.
  - exists d, r, k. cbv zeta in *.
    split; [by injection Hd|]. split; [by injection Hr|].
    split; [by injection Hk|]. exact Hrest.
Defined.

Lemma cracen_ed448_sign_verify_roundtrip_witness :
  let derived :=
    cracen_ed448_create_pubkey (backend := toy_backend) sample_seed
      sample_pub_key_buffer (stack_junk 114) in
  let signed :=
    cracen_ed448_sign (backend := toy_backend) sample_seed
      sample_signature_buffer [] (stack_junk 285) (stack_junk 114) in
  derived.1 = SX_OK ∧ signed.1 = SX_OK ∧
  cracen_ed448_verify (backend := toy_backend)
    (fr_pub_key derived.2) [] (fr_signature signed.2) (stack_junk 114)
    = SX_OK.
Proof.
  apply (cracen_ed448_sign_verify_roundtrip (laws := toy_curve_laws));
    try reflexivity; vm_compute; lia.
Defined.

(** ** Further properties of the Ed448 driver *)

Section DriverProperties.
Context {backend : Backend} {backend_ok : BackendOK backend}.
Implicit Types (priv_key signature message pub_key : list N).
Implicit Types (workmem pnt_r hashedmessage digest : list N).
Implicit Types (prehash is_message : bool).

(** The primitive calls behind a successful [pubkey_value]. *)
Lemma pubkey_value_ok priv_key :
  (pubkey_value priv_key).1 = SX_OK →
  ∃ d A,
    cracen_hash_input (sub 0 SX_ED448_SZ priv_key) = (SX_OK, d) ∧
    sx_ed448_ptmult
      (decode_scalar_448 (sub 0 SX_ED448_SZ d) ++ replicate SX_ED448_SZ 0%N)
      = (SX_OK, A) ∧
    (pubkey_value priv_key).2 = A.
Proof.
  unfold pubkey_value.
  destruct (cracen_hash_input _) as [st d] eqn:Hd.
  case_decide as Hst; [done|]. subst st.
  destruct (sx_ed448_ptmult _) as [st A] eqn:HA.
  case_decide as Hst; [done|]. subst st.
  intros _. by exists d, A.
Qed.

(** X1.  A sign call, in either mode and through either entry point, that
    returns [SX_OK] leaves [workmem] entirely zero, and a public key
    derivation that returns [SX_OK] leaves [digest] entirely zero. *)
Theorem success_wipes_scratch priv_key signature message prehash is_message
    pub_key hashedmessage workmem pnt_r digest :
  length workmem = WORKMEM_SZ → length pnt_r = SX_ED448_DGST_SZ →
  length digest = SX_ED448_DGST_SZ →
  let signed :=
    ed448_sign_internal priv_key signature message prehash workmem pnt_r in
  let signed_ph :=
    cracen_ed448ph_sign priv_key signature message is_message
      hashedmessage workmem pnt_r in
  let derived := cracen_ed448_create_pubkey priv_key pub_key digest in
  (signed.1 = SX_OK → fr_workmem signed.2 = replicate WORKMEM_SZ 0%N) ∧
  (signed_ph.1 = SX_OK → fr_workmem signed_ph.2 = replicate WORKMEM_SZ 0%N) ∧
  (derived.1 = SX_OK → fr_digest derived.2 = replicate SX_ED448_DGST_SZ 0%N).
Proof.
  intros Hw Hp Hg signed signed_ph derived.
  assert (∀ m ph,
    (ed448_sign_internal priv_key signature m ph workmem pnt_r).1 = SX_OK →
    fr_workmem (ed448_sign_internal priv_key signature m ph workmem pnt_r).2
      = replicate WORKMEM_SZ 0%N) as Hint.
  { intros m ph Hok.
    destruct (ed448_sign_internal_value priv_key signature m ph
                workmem pnt_r Hw Hp) as [Hs Hv].
    rewrite Hs in Hok. by destruct (Hv Hok) as [_ ->]. }
  split; [apply Hint|]. split.
  - subst signed_ph. unfold cracen_ed448ph_sign. destruct is_message.
    + destruct (cracen_hash_input message) as [st out].
      case_decide; [done|]. apply Hint.
    + apply Hint.
  - subst derived. intros Hok.
    destruct (cracen_ed448_create_pubkey_value priv_key pub_key digest Hg)
      as [Hs Hv].
    rewrite Hs in Hok. by destruct (Hv Hok) as [_ ->].
Qed.

(** X2.  The status of [cracen_ed448_create_pubkey] and the key it stores
    depend on the private key only, not on what [digest] or the caller's
    buffer held: a successful call stores the 57 bytes that
    [sx_ed448_ptmult] returned for the decoded scalar followed by 57 zero
    bytes, and leaves the rest of the caller's buffer as it was. *)
Theorem cracen_ed448_create_pubkey_stores
    priv_key pub_key1 pub_key2 digest1 digest2 :
  length digest1 = SX_ED448_DGST_SZ → length digest2 = SX_ED448_DGST_SZ →
  let res1 := cracen_ed448_create_pubkey priv_key pub_key1 digest1 in
  let res2 := cracen_ed448_create_pubkey priv_key pub_key2 digest2 in
  res1.1 = res2.1 ∧
  (res1.1 = SX_OK →
   ∃ d A,
     cracen_hash_input (sub 0 SX_ED448_SZ priv_key) = (SX_OK, d) ∧
     sx_ed448_ptmult
       (decode_scalar_448 (sub 0 SX_ED448_SZ d) ++ replicate SX_ED448_SZ 0%N)
       = (SX_OK, A) ∧
     length A = SX_ED448_SZ ∧
     fr_pub_key res1.2 = upd 0 A pub_key1 ∧
     fr_pub_key res2.2 = upd 0 A pub_key2 ∧
     (SX_ED448_SZ ≤ length pub_key1 →
      fr_pub_key res1.2 = A ++ drop SX_ED448_SZ pub_key1)).
Proof.
  intros Hg1 Hg2 res1 res2. subst res1 res2.
  destruct (cracen_ed448_create_pubkey_value priv_key pub_key1 digest1 Hg1)
    as [Hs1 Hv1].
  destruct (cracen_ed448_create_pubkey_value priv_key pub_key2 digest2 Hg2)
    as [Hs2 Hv2].
  split; [congruence|]. intros Hok. rewrite Hs1 in Hok.
  destruct (Hv1 Hok) as [Hl ->]. destruct (Hv2 Hok) as [_ ->].
  destruct (pubkey_value_ok _ Hok) as (d & A & Hd & HA & HvA).
  rewrite HvA in *. exists d, A. cbn [fr_pub_key].
  repeat split; try done.
  intros Hpub. rewrite upd_0_app by lia. by rewrite Hl.
Qed.

(** [ed448_verify_internal] does not depend on what its [digest] array
    held. *)
Lemma ed448_verify_internal_digest
    pub_key message signature prehash digest1 digest2 :
  length digest1 = SX_ED448_DGST_SZ → length digest2 = SX_ED448_DGST_SZ →
  ed448_verify_internal pub_key message signature prehash digest1 =
  ed448_verify_internal pub_key message signature prehash digest2.
Proof.
  intros Hg1 Hg2. unfold ed448_verify_internal, ed448_verify_digest.
  destruct (cracen_hash_all_inputs _) as [st k] eqn:Hk.
  case_decide as Hst; [done|]. subst st.
  pose proof (hash_all_inputs_length _ _ Hk) as Hlk.
  by rewrite !upd_whole by lia.
Qed.

(** X3.  Verifying a raw message with [is_message = true] and verifying
    its 114 byte digest with [is_message = false] give the same verdict,
    whatever the local arrays held. *)
Theorem cracen_ed448ph_verify_prehash_equiv
    pub_key message d signature md1 md2 digest1 digest2 :
  length md1 = SX_ED448_DGST_SZ →
  length digest1 = SX_ED448_DGST_SZ → length digest2 = SX_ED448_DGST_SZ →
  cracen_hash_input message = (SX_OK, d) →
  cracen_ed448ph_verify pub_key message signature true md1 digest1 =
  cracen_ed448ph_verify pub_key d signature false md2 digest2.
Proof.
  intros Hmd Hg1 Hg2 Hd. pose proof (hash_input_length _ _ Hd) as Hld.
  unfold cracen_ed448ph_verify. rewrite Hd.
  rewrite decide_False by (intros Hne; by apply Hne).
  rewrite upd_whole, sub_all by lia.
  by apply ed448_verify_internal_digest.
Qed.

(** Signing, key derivation and verification meet in one run of the
    primitives. *)
Lemma verify_after_sign_run priv_key message signature pub_key prehash
    workmem pnt_r digest digest' :
  length workmem = WORKMEM_SZ → length pnt_r = SX_ED448_DGST_SZ →
  length digest = SX_ED448_DGST_SZ → length digest' = SX_ED448_DGST_SZ →
  SX_ED448_DGST_SZ ≤ length signature → SX_ED448_SZ ≤ length pub_key →
  let derived := cracen_ed448_create_pubkey priv_key pub_key digest in
  let signed :=
    ed448_sign_internal priv_key signature message prehash workmem pnt_r in
  derived.1 = SX_OK → signed.1 = SX_OK →
  ∃ d r R A k S_enc,
    let s := decode_scalar_448 (sub 0 SX_ED448_SZ d) in
    cracen_hash_input (sub 0 SX_ED448_SZ priv_key) = (SX_OK, d) ∧
    cracen_hash_all_inputs
      (r_hash_list (sub SX_ED448_SZ SX_ED448_SZ d) message prehash)
      = (SX_OK, r) ∧
    sx_ed448_ptmult r = (SX_OK, R) ∧
    sx_ed448_ptmult (s ++ replicate SX_ED448_SZ 0%N) = (SX_OK, A) ∧
    cracen_hash_all_inputs (k_hash_list R A message prehash) = (SX_OK, k) ∧
    sx_ed448_sign k r s = (SX_OK, S_enc) ∧
    sub 0 SX_ED448_SZ (fr_pub_key derived.2) = A ∧
    sub 0 SX_ED448_DGST_SZ (fr_signature signed.2) = R ++ S_enc ∧
    ed448_verify_internal (fr_pub_key derived.2) message
      (fr_signature signed.2) prehash digest' = sx_ed448_verify k A S_enc R.
Proof.
  intros Hw Hp Hg Hg' Hsig Hpub derived signed Hdok Hsok.
  subst derived signed.
  destruct (cracen_ed448_create_pubkey_value priv_key pub_key digest Hg)
    as [Hd1 Hd2].
  destruct (ed448_sign_internal_value priv_key signature message prehash
              workmem pnt_r Hw Hp) as [Hs1 Hs2].
  rewrite Hd1 in Hdok. rewrite Hs1 in Hsok.
  destruct (Hd2 Hdok) as [_ ->]. destruct (Hs2 Hsok) as [_ ->].
  destruct (pubkey_value_ok _ Hdok) as (d' & A' & Hd' & HA' & ->).
  destruct (sign_value_ok _ _ _ Hsok)
    as (d & r & R & A & k & S_enc & Hd & Hr & HR & HA & Hk & HS & ->).
  cbv zeta in *. rewrite Hd in Hd'. injection Hd' as <-.
  rewrite HA in HA'. injection HA' as <-.
  pose proof (ptmult_length _ _ HR) as HlR.
  pose proof (ptmult_length _ _ HA) as HlA.
  pose proof (sign_length _ _ _ _ HS) as HlS.
  pose proof (hash_all_inputs_length _ _ Hk) as Hlk.
  cbn [fr_pub_key fr_signature].
  assert (sub 0 57 (upd 0 (R ++ S_enc) signature) = R) as ER.
  { rewrite sub_upd_inside by (rewrite ?length_app; lia).
    by apply sub_app_l. }
  assert (sub 57 57 (upd 0 (R ++ S_enc) signature) = S_enc) as ES.
  { rewrite sub_upd_inside by (rewrite ?length_app; lia).
    rewrite sub_app_r by done. apply sub_all. lia. }
  assert (sub 0 57 (upd 0 A pub_key) = A) as EA.
  { rewrite sub_upd_inside by lia. apply sub_all. lia. }
  exists d, r, R, A, k, S_enc.
  repeat (split; [done|]). split.
  { rewrite sub_upd_inside by (rewrite ?length_app; lia).
    apply sub_all. rewrite length_app. lia. }
  unfold ed448_verify_internal, ed448_verify_digest.
  rewrite ed448_verify_inputs_eq, ER, ES, EA, Hk.
  rewrite decide_False by (intros Hne; by apply Hne).
  by rewrite upd_whole, sub_all by lia.
Qed.

(** X4.  Verification of a fresh signature comes down to the curve check
    on the values signing used.  When key derivation and signing succeed,
    [ed448_verify_internal], given the derived key and the stored
    signature in the same mode, hashes the same list as signing did and
    returns what [sx_ed448_verify] says of the challenge digest [k], the
    public key [A], the scalar [S] and the point [R] of the signing
    run. *)
Theorem ed448_verify_after_sign priv_key message signature pub_key prehash
    workmem pnt_r digest digest' :
  length workmem = WORKMEM_SZ → length pnt_r = SX_ED448_DGST_SZ →
  length digest = SX_ED448_DGST_SZ → length digest' = SX_ED448_DGST_SZ →
  SX_ED448_DGST_SZ ≤ length signature → SX_ED448_SZ ≤ length pub_key →
  let derived := cracen_ed448_create_pubkey priv_key pub_key digest in
  let signed :=
    ed448_sign_internal priv_key signature message prehash workmem pnt_r in
  derived.1 = SX_OK → signed.1 = SX_OK →
  ∃ d r R A k S_enc,
    let s := decode_scalar_448 (sub 0 SX_ED448_SZ d) in
    cracen_hash_input (sub 0 SX_ED448_SZ priv_key) = (SX_OK, d) ∧
    cracen_hash_all_inputs
      (r_hash_list (sub SX_ED448_SZ SX_ED448_SZ d) message prehash)
      = (SX_OK, r) ∧
    sx_ed448_ptmult r = (SX_OK, R) ∧
    sx_ed448_ptmult (s ++ replicate SX_ED448_SZ 0%N) = (SX_OK, A) ∧
    cracen_hash_all_inputs (k_hash_list R A message prehash) = (SX_OK, k) ∧
    sx_ed448_sign k r s = (SX_OK, S_enc) ∧
    sub 0 SX_ED448_SZ (fr_pub_key derived.2) = A ∧
    sub 0 SX_ED448_DGST_SZ (fr_signature signed.2) = R ++ S_enc ∧
    ed448_verify_internal (fr_pub_key derived.2) message
      (fr_signature signed.2) prehash digest' = sx_ed448_verify k A S_enc R.
Proof. apply verify_after_sign_run. Qed.

(** X5.  The same for Ed448ph on a raw message: when hashing the message,
    key derivation and [cracen_ed448ph_sign] with [is_message = true]
    succeed, [cracen_ed448ph_verify] with [is_message = true] returns what
    [sx_ed448_verify] says of the values of the signing run, which signed
    the digest of the message in prehash mode. *)
Theorem cracen_ed448ph_verify_after_sign priv_key message m_digest signature
    pub_key hm md workmem pnt_r digest digest' :
  length workmem = WORKMEM_SZ → length pnt_r = SX_ED448_DGST_SZ →
  length digest = SX_ED448_DGST_SZ → length digest' = SX_ED448_DGST_SZ →
  length hm = SX_ED448_DGST_SZ → length md = SX_ED448_DGST_SZ →
  SX_ED448_DGST_SZ ≤ length signature → SX_ED448_SZ ≤ length pub_key →
  cracen_hash_input message = (SX_OK, m_digest) →
  let derived := cracen_ed448_create_pubkey priv_key pub_key digest in
  let signed :=
    cracen_ed448ph_sign priv_key signature message true hm workmem pnt_r in
  derived.1 = SX_OK → signed.1 = SX_OK →
  ∃ d r R A k S_enc,
    let s := decode_scalar_448 (sub 0 SX_ED448_SZ d) in
    cracen_hash_input (sub 0 SX_ED448_SZ priv_key) = (SX_OK, d) ∧
    cracen_hash_all_inputs
      [dom4; sub SX_ED448_SZ SX_ED448_SZ d; m_digest] = (SX_OK, r) ∧
    sx_ed448_ptmult r = (SX_OK, R) ∧
    sx_ed448_ptmult (s ++ replicate SX_ED448_SZ 0%N) = (SX_OK, A) ∧
    cracen_hash_all_inputs [dom4; R; A; m_digest] = (SX_OK, k) ∧
    sx_ed448_sign k r s = (SX_OK, S_enc) ∧
    cracen_ed448ph_verify (fr_pub_key derived.2) message
      (fr_signature signed.2) true md digest' = sx_ed448_verify k A S_enc R.
Proof.
  intros Hw Hp Hg Hg' Hhm Hmd Hsig Hpub Hm derived signed Hdok Hsok.
  pose proof (hash_input_length _ _ Hm) as Hlm.
  assert (signed =
          ed448_sign_internal priv_key signature m_digest true workmem pnt_r)
    as Es.
  { subst signed. unfold cracen_ed448ph_sign. rewrite Hm.
    rewrite decide_False by (intros Hne; by apply Hne).
    by rewrite upd_whole, sub_all by lia. }
  rewrite Es in Hsok |- *.
  destruct (verify_after_sign_run priv_key m_digest signature pub_key true
              workmem pnt_r digest digest' Hw Hp Hg Hg' Hsig Hpub Hdok Hsok)
    as (d & r & R & A & k & S_enc & Hd & Hr & HR & HA & Hk & HS & _ & _ & Hv).
  exists d, r, R, A, k, S_enc. repeat (split; [done|]).
  unfold cracen_ed448ph_verify. rewrite Hm.
  rewrite decide_False by (intros Hne; by apply Hne).
  by rewrite upd_whole, sub_all by lia.
Qed.

(** X6.  Signing returns [SX_OK] exactly when each of its six primitive
    computations succeeds on the values that flow to it: the key digest,
    the nonce digest, the two point multiplications, the challenge digest
    and the scalar combination. *)
Theorem ed448_sign_internal_ok_iff
    priv_key signature message prehash workmem pnt_r :
  length workmem = WORKMEM_SZ → length pnt_r = SX_ED448_DGST_SZ →
  (ed448_sign_internal priv_key signature message prehash workmem pnt_r).1
    = SX_OK ↔
  ∃ d r R A k S_enc,
    let s := decode_scalar_448 (sub 0 SX_ED448_SZ d) in
    cracen_hash_input (sub 0 SX_ED448_SZ priv_key) = (SX_OK, d) ∧
    cracen_hash_all_inputs
      (r_hash_list (sub SX_ED448_SZ SX_ED448_SZ d) message prehash)
      = (SX_OK, r) ∧
    sx_ed448_ptmult r = (SX_OK, R) ∧
    sx_ed448_ptmult (s ++ replicate SX_ED448_SZ 0%N) = (SX_OK, A) ∧
    cracen_hash_all_inputs (k_hash_list R A message prehash) = (SX_OK, k) ∧
    sx_ed448_sign k r s = (SX_OK, S_enc).
Proof.
  intros Hw Hp.
  destruct (ed448_sign_internal_value priv_key signature message prehash
              workmem pnt_r Hw Hp) as [-> _].
  split.
  - intros Hok.
    destruct (sign_value_ok _ _ _ Hok)
      as (d & r & R & A & k & S_enc & Hd & Hr & HR & HA & Hk & HS & _).
    by exists d, r, R, A, k, S_enc.
  - intros (d & r & R & A & k & S_enc & Hd & Hr & HR & HA & Hk & HS).
    cbv zeta in *. unfold sign_value.
    rewrite Hd, decide_False by (intros Hne; by apply Hne).
    rewrite Hr, decide_False by (intros Hne; by apply Hne).
    rewrite HR, decide_False by (intros Hne; by apply Hne).
    rewrite HA, decide_False by (intros Hne; by apply Hne).
    rewrite Hk, decide_False by (intros Hne; by apply Hne).
    rewrite HS, decide_False by (intros Hne; by apply Hne).
    done.
Qed.
End DriverProperties.

(** ** Scalar clamping in the Montgomery point multiplications *)

Lemma le_cons b l : le (b :: l) = (b + 256 * le l)%N.
Proof. done. Qed.

Lemma le_app l1 l2 :
  le (l1 ++ l2) = (le l1 + 256 ^ N.of_nat (length l1) * le l2)%N.
Proof.
  induction l1 as [|b l1 IH].
  - cbn [app length]. change (le []) with 0%N.
    change (N.of_nat 0) with 0%N. rewrite N.pow_0_r. lia.
  - cbn [app length]. rewrite !le_cons, IH, Nat2N.inj_succ, N.pow_succ_r'.
    ring.
Qed.

Lemma le_bytes_bound l :
  Forall (λ b, b < 256)%N l → (le l < 256 ^ N.of_nat (length l))%N.
Proof.
  induction 1 as [|b l Hb Hl IH].
  - cbn. lia.
  - cbn [length]. cbn beta in Hb.
    rewrite le_cons, Nat2N.inj_succ, N.pow_succ_r'. lia.
Qed.

(** A list of at least two elements is its first, its middle and its
    last. *)
Lemma list_first_middle_last {A} n (l : list A) :
  length l = S (S n) →
  ∃ b0 mid bl, l = b0 :: mid ++ [bl] ∧ length mid = n.
Proof.
  intros Hl. destruct l as [|b0 t]; [done|]. cbn in Hl.
  assert (length (drop n t) = 1) as Hd by (rewrite length_drop; lia).
  destruct (drop n t) as [|bl [|? ?]] eqn:Ht; try done.
  exists b0, (take n t), bl. split.
  - by rewrite <-Ht, take_drop.
  - rewrite length_take. lia.
Qed.

(** A property of bytes that can be decided holds if it holds of the 256
    of them. *)
Lemma byte_cases (P : N → Prop) `{!∀ b, Decision (P b)} :
  Forall P (N.of_nat <$> seq 0 256) → ∀ b, (b < 256)%N → P b.
Proof.
  intros HP b Hb. rewrite Forall_forall in HP. apply HP.
  apply list_elem_of_fmap. exists (N.to_nat b). split; [lia|].
  apply elem_of_seq. lia.
Qed.

Ltac by_byte_cases b Hb :=
  revert b Hb; apply byte_cases; [apply _|];
  apply (bool_decide_unpack _); vm_compute; reflexivity.


Lemma byte_land_FC b : (b < 256)%N → N.land b 0xFC = (b - b mod 4)%N.
Proof. intros Hb. by_byte_cases b Hb. Qed.



Lemma byte_lor_80 b : (b < 256)%N → N.lor b 0x80 = (128 + b mod 128)%N.
Proof. intros Hb. by_byte_cases b Hb. Qed.

(** Idempotence of the byte operations, for every number. *)
Lemma land_land_same x m : N.land (N.land x m) m = N.land x m.
Proof. by rewrite <-N.land_assoc, N.land_diag. Qed.

Lemma lor_lor_same x m : N.lor (N.lor x m) m = N.lor x m.
Proof. by rewrite <-N.lor_assoc, N.lor_diag. Qed.

Lemma land_lor_idem x a m :
  N.land (N.lor (N.land (N.lor x a) m) a) m = N.land (N.lor x a) m.
Proof.
  apply N.bits_inj. intros i.
  rewrite !N.land_spec, !N.lor_spec, !N.land_spec, !N.lor_spec.
  by destruct (N.testbit x i), (N.testbit a i), (N.testbit m i).
Qed.

(** What the stores of a clamping sequence leave in a slot: the operand
    copied to its start, then its last byte replaced by [f] of it, then
    its first byte by [g] of it. *)
Section Slots.
Context (n : nat) (f g : N → N).
Implicit Types (k slot mid rest : list N).

Lemma slot_copy k slot (b0 : N) mid (bl : N) :
  k = b0 :: mid ++ [bl] → length mid = n → S (S n) ≤ length slot →
  upd 0 (sub 0 (S (S n)) k) slot = b0 :: mid ++ bl :: drop (S (S n)) slot.
Proof.
  intros -> Hm Hs.
  assert (length (b0 :: mid ++ [bl]) = S (S n)) as Hl.
  { cbn. rewrite length_app. cbn. lia. }
  rewrite sub_all by lia. rewrite upd_0_app by lia. rewrite Hl.
  cbn. by rewrite <-app_assoc.
Qed.

Lemma top_lookup (b0 : N) mid (bl : N) rest :
  length mid = n → (b0 :: mid ++ bl :: rest) !!! S n = bl.
Proof.
  intros Hm. change ((mid ++ bl :: rest) !!! n = bl).
  by apply list_lookup_total_middle.
Qed.

Lemma top_insert (b0 : N) mid (bl : N) rest (y : N) :
  length mid = n →
  <[S n := y]> (b0 :: mid ++ bl :: rest) = b0 :: mid ++ y :: rest.
Proof.
  intros Hm.
  change (b0 :: <[n := y]> (mid ++ bl :: rest) = b0 :: mid ++ y :: rest).
  f_equal. rewrite insert_app_r_alt by lia.
  by replace (n - length mid) with 0 by lia.
Qed.

Lemma slot_top k slot (b0 : N) mid (bl : N) :
  k = b0 :: mid ++ [bl] → length mid = n → S (S n) ≤ length slot →
  let slot1 := upd 0 (sub 0 (S (S n)) k) slot in
  <[S n := f (slot1 !!! S n)]> slot1
    = b0 :: mid ++ f bl :: drop (S (S n)) slot.
Proof.
  intros Hk Hm Hs. cbv zeta. rewrite (slot_copy _ _ _ _ _ Hk Hm Hs).
  by rewrite top_lookup, top_insert.
Qed.

Lemma slot_clamp k slot (b0 : N) mid (bl : N) :
  k = b0 :: mid ++ [bl] → length mid = n → S (S n) ≤ length slot →
  let slot1 := upd 0 (sub 0 (S (S n)) k) slot in
  let slot2 := <[S n := f (slot1 !!! S n)]> slot1 in
  <[0 := g (slot2 !!! 0)]> slot2
    = g b0 :: mid ++ f bl :: drop (S (S n)) slot.
Proof.
  intros Hk Hm Hs. cbv zeta. by rewrite (slot_top _ _ _ _ _ Hk Hm Hs).
Qed.

Lemma sub_operand (b0 : N) mid (bl : N) rest :
  length mid = n →
  sub 0 (S (S n)) (b0 :: mid ++ bl :: rest) = b0 :: mid ++ [bl].
Proof.
  intros Hm.
  replace (b0 :: mid ++ bl :: rest) with ((b0 :: mid ++ [bl]) ++ rest)
    by (cbn; by rewrite <-app_assoc).
  apply sub_app_l. cbn. rewrite length_app. cbn. lia.
Qed.

Lemma drop_operand (b0 : N) mid (bl : N) rest :
  length mid = n → drop (S (S n)) (b0 :: mid ++ bl :: rest) = rest.
Proof.
  intros Hm.
  replace (b0 :: mid ++ bl :: rest) with ((b0 :: mid ++ [bl]) ++ rest)
    by (cbn; by rewrite <-app_assoc).
  apply drop_app_length'. cbn. rewrite length_app. cbn. lia.
Qed.

Lemma le_operand (b0 : N) mid (bl : N) :
  length mid = n →
  le (b0 :: mid ++ [bl]) = (b0 + 256 * (le mid + 256 ^ N.of_nat n * bl))%N.
Proof.
  intros Hm. rewrite le_cons, le_app, Hm. cbn [le foldr]. lia.
Qed.
End Slots.

Lemma drop_upd_0 {A} n (data buf : list A) :
  length data ≤ n → drop n (upd 0 data buf) = drop n buf.
Proof.
  intros Hl. apply list_eq; intros i. rewrite !lookup_drop, lookup_upd.
  by rewrite decide_False by lia.
Qed.

(** Treat the quotients and remainders in the context as unknowns. *)
Ltac abstract_divmod :=
  repeat match goal with
    | H : context [N.modulo ?a ?b] |- _ =>
        generalize dependent (N.modulo a b); intros
    | H : context [N.div ?a ?b] |- _ =>
        generalize dependent (N.div a b); intros
    end.

(** Evaluate the powers of constants. *)
Ltac eval_pow :=
  repeat match goal with
    | |- context [N.pow ?a ?b] =>
        let v := eval vm_compute in (N.pow a b) in
        change (N.pow a b) with v
    | H : context [N.pow ?a ?b] |- _ =>
        let v := eval vm_compute in (N.pow a b) in
        change (N.pow a b) with v in H
    end.



(** The clamped X448 scalar as a number. *)
Lemma clamp_value_448 b0 M bl :
  (b0 < 256)%N → (M < 256 ^ 54)%N → (bl < 256)%N →
  let v := (b0 + 256 * (M + 256 ^ 54 * bl))%N in
  let c := (b0 - b0 mod 4 + 256 * (M + 256 ^ 54 * (128 + bl mod 128)))%N in
  c = (2 ^ 447 + v mod 2 ^ 447 - v mod 4)%N ∧
  (c mod 4 = 0)%N ∧ (2 ^ 447 ≤ c < 2 ^ 448)%N.
Proof.
  intros Hb0 HM Hbl v c.
  pose proof (N.div_mod b0 4 ltac:(lia)) as E0.
  pose proof (N.mod_upper_bound b0 4 ltac:(lia)) as U0.
  pose proof (N.div_mod bl 128 ltac:(lia)) as El.
  pose proof (N.mod_upper_bound bl 128 ltac:(lia)) as Ul.
  assert (v mod 4 = b0 mod 4)%N as Ev4.
  { symmetry.
    apply (N.mod_unique v 4 (b0 / 4 + 64 * (M + 256 ^ 54 * bl))); [lia|].
    subst v. eval_pow. abstract_divmod. lia. }
  assert (v mod 2 ^ 447 = b0 + 256 * (M + 256 ^ 54 * (bl mod 128)))%N as Evh.
  { symmetry. apply (N.mod_unique v (2 ^ 447) (bl / 128)).
    - eval_pow. abstract_divmod. lia.
    - subst v. eval_pow. abstract_divmod. lia. }
  assert (c mod 4 = 0)%N as Ec4.
  { symmetry.
    apply (N.mod_unique c 4
             (b0 / 4 + 64 * (M + 256 ^ 54 * (128 + bl mod 128)))); [lia|].
    subst c. eval_pow. abstract_divmod. lia. }
  split; [|split; [done|]].
  - rewrite Ev4, Evh. subst c. eval_pow. clear Ev4 Evh Ec4 v.
    abstract_divmod. lia.
  - subst c. eval_pow. clear Ev4 Evh Ec4 v. abstract_divmod. lia.
Qed.

Section MontgomeryProperties.
Context {acc : Accelerator} {mem : AcceleratorMem acc}.
Implicit Types (k pt r : list N).


(** X10.  [sx_x448_ptmult] hands the accelerator the clamped scalar of
    RFC 7748 and the point as it is.  With 56 byte operands, the number in
    the first 56 bytes of the [k] slot is the scalar with its two low bits
    cleared and bit 447 set: a multiple of 4 in [[2^447, 2^448)].  The
    slots are untouched behind the operands, and the status and the
    result are those of the accelerator run on these slots. *)
Theorem sx_x448_ptmult_clamps k pt r inputs_p inputs_k :
  sx_pk_list_ecc_inslots SX_PK_CMD_MONTGOMERY_PTMUL sx_curve_x448
    = (SX_OK, (inputs_p, inputs_k)) →
  length k = SX_X448_OP_SZ → length pt = SX_X448_OP_SZ →
  SX_X448_OP_SZ ≤ length inputs_p → SX_X448_OP_SZ ≤ length inputs_k →
  Forall (λ b, b < 256)%N k →
  ∃ p' k',
    sx_x448_ptmult k pt r =
      (let '(status, out) :=
         sx_pk_run_wait SX_PK_CMD_MONTGOMERY_PTMUL sx_curve_x448 p' k' in
       if decide (status ≠ SX_OK) then (status, r)
       else (status, upd 0 (sub 0 SX_X448_OP_SZ out) r)) ∧
    let scalar := le (sub 0 SX_X448_OP_SZ k') in
    scalar = (2 ^ 447 + le k mod 2 ^ 447 - le k mod 4)%N ∧
    (scalar mod 4 = 0)%N ∧ (2 ^ 447 ≤ scalar < 2 ^ 448)%N ∧
    sub 0 SX_X448_OP_SZ p' = pt ∧
    drop SX_X448_OP_SZ k' = drop SX_X448_OP_SZ inputs_k ∧
    drop SX_X448_OP_SZ p' = drop SX_X448_OP_SZ inputs_p.
Proof.
  intros Hslots Hk Hpt Hps Hks Hkb.
  destruct (list_first_middle_last 54 k Hk) as (k0 & kmid & kl & Ek & Hkm).
  unfold sx_x448_ptmult. rewrite Hslots.
  rewrite decide_False by (intros Hne; by apply Hne).
  rewrite !sx_wrpkmem_copies, !sx_wrpkmem_byte_stores.
  rewrite (slot_clamp 54 (λ b, N.lor b 0x80) (λ b, N.land b 0xFC)
             k inputs_k k0 kmid kl Ek Hkm Hks).
  match goal with
  | |- context [sx_pk_run_wait _ _ ?p ?k] => exists p, k
  end.
  split.
  { destruct (sx_pk_run_wait _ _ _ _) as [st out].
    by rewrite sx_rdpkmem_copies. }
  cbv zeta. rewrite (sub_operand 54), (drop_operand 54) by done.
  rewrite (le_operand 54) by done.
  subst k. rewrite (le_operand 54) by done.
  apply Forall_cons in Hkb as [Hk0 Hkb]. apply Forall_app in Hkb as [Hkb Hkl].
  rewrite Forall_singleton in Hkl. cbn beta in *.
  apply le_bytes_bound in Hkb. rewrite Hkm in Hkb.
  change (N.of_nat 54) with 54%N in *.
  rewrite byte_land_FC, byte_lor_80 by done.
  destruct (clamp_value_448 k0 (le kmid) kl Hk0 Hkb Hkl) as (E & E4 & Hr).
  cbv zeta in *. repeat (split; [done|]).
  rewrite (sub_all 56 pt) by lia. split.
  - rewrite sub_upd_inside by lia. apply sub_all. lia.
  - split; [done|]. apply drop_upd_0. lia.
Qed.

(** X11.  Both point multiplications store into [r] only when they
    return [SX_OK], and then only into its first 32, respectively 56,
    bytes: on any other status [r] is as the caller left it, and in every
    case [r] keeps its length and its bytes behind the operand. *)
Theorem montgomery_ptmult_result_frame k pt r :
  let res25519 := sx_x25519_ptmult k pt r in
  let res448 := sx_x448_ptmult k pt r in
  (res25519.1 ≠ SX_OK → res25519.2 = r) ∧
  length res25519.2 = length r ∧
  drop SX_X25519_OP_SZ res25519.2 = drop SX_X25519_OP_SZ r ∧
  (res448.1 ≠ SX_OK → res448.2 = r) ∧
  length res448.2 = length r ∧
  drop SX_X448_OP_SZ res448.2 = drop SX_X448_OP_SZ r.
Proof.
  assert (∀ n (out : list N), length (sub 0 n out) ≤ n) as Hsub.
  { intros n out. unfold sub. rewrite length_take. lia. }
  cbv zeta. unfold sx_x25519_ptmult, sx_x448_ptmult.
  destruct (sx_pk_list_ecc_inslots _ sx_curve_x25519) as [st1 [p1 k1]].
  destruct (sx_pk_list_ecc_inslots _ sx_curve_x448) as [st2 [p2 k2]].
  repeat driver_step; cbn [fst snd]; rewrite ?sx_rdpkmem_copies;
    rewrite ?length_upd, ?drop_upd_0 by apply Hsub; done.
Qed.

(** X12.  Clamping is idempotent: a caller that has already clamped the
    scalar, and for X25519 masked the point, gets the status and result
    it would get for the raw operands, provided the slots the accelerator
    hands out hold an operand. *)
Theorem montgomery_ptmult_clamped_input k pt r :
  ((∀ p_slot k_slot,
      sx_pk_list_ecc_inslots SX_PK_CMD_MONTGOMERY_PTMUL sx_curve_x25519
        = (SX_OK, (p_slot, k_slot)) →
      SX_X25519_OP_SZ ≤ length p_slot ∧ SX_X25519_OP_SZ ≤ length k_slot) →
   length k = SX_X25519_OP_SZ → length pt = SX_X25519_OP_SZ →
   sx_x25519_ptmult
     (<[0 := N.land (k !!! 0) 0xF8]>
        (<[31 := N.land (N.lor (k !!! 31) (N.shiftl 1 6)) 0x7f]> k))
     (<[31 := N.land (pt !!! 31) 0x7f]> pt) r
   = sx_x25519_ptmult k pt r) ∧
  ((∀ p_slot k_slot,
      sx_pk_list_ecc_inslots SX_PK_CMD_MONTGOMERY_PTMUL sx_curve_x448
        = (SX_OK, (p_slot, k_slot)) →
      SX_X448_OP_SZ ≤ length p_slot ∧ SX_X448_OP_SZ ≤ length k_slot) →
   length k = SX_X448_OP_SZ →
   sx_x448_ptmult
     (<[0 := N.land (k !!! 0) 0xFC]> (<[55 := N.lor (k !!! 55) 0x80]> k))
     pt r
   = sx_x448_ptmult k pt r).
Proof.
  split.
  - intros Hslots Hk Hpt.
    destruct (list_first_middle_last 30 k Hk) as (k0 & kmid & kl & Ek & Hkm).
    destruct (list_first_middle_last 30 pt Hpt)
      as (p0 & pmid & pl & Ep & Hpm).
    subst k pt.
    replace (kmid ++ [kl]) with (kmid ++ kl :: []) by done.
    replace (pmid ++ [pl]) with (pmid ++ pl :: []) by done.
    rewrite !(top_lookup 30), !(top_insert 30) by done.
    change ((k0 :: kmid ++ _ :: []) !!! 0) with k0.
    change (<[0 := ?x]> (k0 :: ?l)) with (x :: l).
    unfold sx_x25519_ptmult.
    destruct (sx_pk_list_ecc_inslots _ _) as [st [ps ks]] eqn:Hs.
    case_decide as Hst; [done|]. subst st.
    destruct (Hslots _ _ eq_refl) as [Hps Hks].
    rewrite !sx_wrpkmem_copies, !sx_wrpkmem_byte_stores.
    rewrite !(slot_clamp 30 (λ b, N.land (N.lor b (N.shiftl 1 6)) 0x7f)
                (λ b, N.land b 0xF8) _ ks _ kmid _ eq_refl Hkm) by lia.
    rewrite !(slot_top 30 (λ b, N.land b 0x7f) _ ps _ pmid _ eq_refl Hpm)
      by lia.
    by rewrite !land_land_same, land_lor_idem.
  - intros Hslots Hk.
    destruct (list_first_middle_last 54 k Hk) as (k0 & kmid & kl & Ek & Hkm).
    subst k.
    replace (kmid ++ [kl]) with (kmid ++ kl :: []) by done.
    rewrite !(top_lookup 54), !(top_insert 54) by done.
    change ((k0 :: kmid ++ _ :: []) !!! 0) with k0.
    change (<[0 := ?x]> (k0 :: ?l)) with (x :: l).
    unfold sx_x448_ptmult.
    destruct (sx_pk_list_ecc_inslots _ _) as [st [ps ks]] eqn:Hs.
    case_decide as Hst; [done|]. subst st.
    destruct (Hslots _ _ eq_refl) as [Hps Hks].
    rewrite !sx_wrpkmem_copies, !sx_wrpkmem_byte_stores.
    rewrite !(slot_clamp 54 (λ b, N.lor b 0x80) (λ b, N.land b 0xFC)
                _ ks _ kmid _ eq_refl Hkm) by lia.
    by rewrite land_land_same, lor_lor_same.
Qed.
End MontgomeryProperties.

(** ** The further properties on the sample inputs *)

Lemma faulty_sign_backend_ok : BackendOK faulty_sign_backend.
Proof.
  split.
  - apply (hash_input_length (BackendOK := toy_backend_ok)).
  - apply (hash_all_inputs_length (BackendOK := toy_backend_ok)).
  - apply (ptmult_length (BackendOK := toy_backend_ok)).
  - intros k r s S_enc Heq. apply (f_equal fst) in Heq. done.
  - apply (decode_scalar_length (BackendOK := toy_backend_ok)).
Defined.

Lemma faulty_ptmult_backend_ok : BackendOK faulty_ptmult_backend.
Proof.
  split.
  - apply (hash_input_length (BackendOK := toy_backend_ok)).
  - apply (hash_all_inputs_length (BackendOK := toy_backend_ok)).
  - intros d p Heq. apply (f_equal fst) in Heq. done.
  - apply (sign_length (BackendOK := toy_backend_ok)).
  - apply (decode_scalar_length (BackendOK := toy_backend_ok)).
Defined.

Lemma toy_accelerator_mem : AcceleratorMem toy_accelerator.
Proof. by split. Defined.

Lemma faulty_accelerator_mem : AcceleratorMem faulty_accelerator.
Proof. by split. Defined.

Lemma success_wipes_scratch_witness :
  fr_workmem
    (ed448_sign_internal (backend := toy_backend) sample_seed
       sample_signature_buffer sample_message false
       (stack_junk 285) (stack_junk 114)).2 = replicate 285 0%N ∧
  fr_workmem
    (cracen_ed448ph_sign (backend := toy_backend) sample_seed
       sample_signature_buffer sample_message true
       (stack_junk 114) (stack_junk 285) (stack_junk 114)).2
    = replicate 285 0%N ∧
  fr_digest
    (cracen_ed448_create_pubkey (backend := toy_backend) sample_seed
       sample_pub_key_buffer (stack_junk 114)).2 = replicate 114 0%N.
Proof.
  destruct (success_wipes_scratch (backend_ok := toy_backend_ok)
              sample_seed sample_signature_buffer sample_message false true
              sample_pub_key_buffer (stack_junk 114) (stack_junk 285)
              (stack_junk 114) (stack_junk 114)
              eq_refl eq_refl eq_refl) as (H1 & H2 & H3).
  split; [|split]; [apply H1|apply H2|apply H3]; vm_compute; reflexivity.
Defined.

Lemma cracen_ed448_create_pubkey_stores_witness :
  (cracen_ed448_create_pubkey (backend := toy_backend) sample_seed
     sample_pub_key_buffer (stack_junk 114)).1 =
  (cracen_ed448_create_pubkey (backend := toy_backend) sample_seed
     (stack_zero 57) (stack_zero 114)).1.
Proof.
  apply (cracen_ed448_create_pubkey_stores (backend_ok := toy_backend_ok)
           sample_seed sample_pub_key_buffer (stack_zero 57)
           (stack_junk 114) (stack_zero 114)); reflexivity.
Defined.

Lemma cracen_ed448ph_verify_prehash_equiv_witness :
  cracen_ed448ph_verify (backend := toy_backend) (sample_point 57)
    sample_message sample_signature_buffer true
    (stack_junk 114) (stack_junk 114) =
  cracen_ed448ph_verify (backend := toy_backend) (sample_point 57)
    (toy_hash sample_message) sample_signature_buffer false
    (stack_zero 114) (stack_zero 114).
Proof.
  apply (cracen_ed448ph_verify_prehash_equiv (backend_ok := toy_backend_ok));
    reflexivity.
Defined.

Lemma ed448_verify_after_sign_witness :
  let derived :=
    cracen_ed448_create_pubkey (backend := toy_backend) sample_seed
      sample_pub_key_buffer (stack_junk 114) in
  let signed :=
    ed448_sign_internal (backend := toy_backend) sample_seed
      sample_signature_buffer sample_message false
      (stack_junk 285) (stack_junk 114) in
  ∃ k A S_enc R,
    ed448_verify_internal (backend := toy_backend) (fr_pub_key derived.2)
      sample_message (fr_signature signed.2) false (stack_junk 114)
    = sx_ed448_verify (Backend := toy_backend) k A S_enc R.
Proof.
  destruct (ed448_verify_after_sign (backend_ok := toy_backend_ok)
              sample_seed sample_message sample_signature_buffer
              sample_pub_key_buffer false (stack_junk 285) (stack_junk 114)
              (stack_junk 114) (stack_junk 114))
    as (d & r & R & A & k & S_enc & H).
  - reflexivity.
  - reflexivity.
  - reflexivity.
  - reflexivity.
  - vm_compute. lia.
  - vm_compute. lia.
  - vm_compute. reflexivity.
  - vm_compute. reflexivity.
  - exists k, A, S_enc, R. apply H.
Defined.

Lemma cracen_ed448ph_verify_after_sign_witness :
  let derived :=
    cracen_ed448_create_pubkey (backend := toy_backend) sample_seed
      sample_pub_key_buffer (stack_junk 114) in
  let signed :=
    cracen_ed448ph_sign (backend := toy_backend) sample_seed
      sample_signature_buffer sample_message true
      (stack_junk 114) (stack_junk 285) (stack_junk 114) in
  ∃ k A S_enc R,
    cracen_ed448ph_verify (backend := toy_backend) (fr_pub_key derived.2)
      sample_message (fr_signature signed.2) true
      (stack_junk 114) (stack_junk 114)
    = sx_ed448_verify (Backend := toy_backend) k A S_enc R.
Proof.
  destruct (cracen_ed448ph_verify_after_sign (backend_ok := toy_backend_ok)
              sample_seed sample_message (toy_hash sample_message)
              sample_signature_buffer sample_pub_key_buffer
              (stack_junk 114) (stack_junk 114) (stack_junk 285)
              (stack_junk 114) (stack_junk 114) (stack_junk 114))
    as (d & r & R & A & k & S_enc & H).
  - reflexivity.
  - reflexivity.
  - reflexivity.
  - reflexivity.
  - reflexivity.
  - reflexivity.
  - vm_compute. lia.
  - vm_compute. lia.
  - reflexivity.
  - vm_compute. reflexivity.
  - vm_compute. reflexivity.
  - exists k, A, S_enc, R. apply H.
Defined.

Lemma ed448_sign_internal_ok_iff_witness :
  ∃ d r R A k S_enc,
    toy_hash (sub 0 57 sample_seed) = d ∧
    cracen_hash_all_inputs (Backend := toy_backend)
      (r_hash_list (sub 57 57 d) sample_message true) = (SX_OK, r) ∧
    sx_ed448_ptmult (Backend := toy_backend) r = (SX_OK, R) ∧
    sx_ed448_ptmult (Backend := toy_backend)
      (decode_scalar_448_rfc (sub 0 57 d) ++ replicate 57 0%N) = (SX_OK, A) ∧
    cracen_hash_all_inputs (Backend := toy_backend)
      (k_hash_list R A sample_message true) = (SX_OK, k) ∧
    sx_ed448_sign (Backend := toy_backend) k r
      (decode_scalar_448_rfc (sub 0 57 d)) = (SX_OK, S_enc).
Proof.
  destruct (ed448_sign_internal_ok_iff (backend_ok := toy_backend_ok)
              sample_seed sample_signature_buffer sample_message true
              (stack_junk 285) (stack_junk 114) eq_refl eq_refl)
    as [Hto _].
  destruct Hto as (d & r & R & A & k & S_enc & Hd & H);
    [vm_compute; reflexivity|].
  exists d, r, R, A, k, S_enc. split; [by injection Hd|]. exact H.
Defined.

Lemma ed448_sign_internal_error_residue_witness :
  let res :=
    ed448_sign_internal (backend := faulty_sign_backend) sample_seed
      sample_signature_buffer sample_message false
      (stack_zero 285) (stack_zero 114) in
  sub 0 57 (fr_workmem res.2) = sub 0 57 (toy_hash (sub 0 57 sample_seed)) ∨
  sub 0 57 (fr_workmem res.2)
    = decode_scalar_448_rfc (sub 0 57 (toy_hash (sub 0 57 sample_seed))).
Proof.
  apply (ed448_sign_internal_error_residue
           (backend_ok := faulty_sign_backend_ok)).
  - reflexivity.
  - reflexivity.
  - vm_compute. discriminate.
Defined.

Lemma cracen_ed448_create_pubkey_error_residue_witness :
  sub 0 57
    (fr_digest
       (cracen_ed448_create_pubkey (backend := faulty_ptmult_backend)
          sample_seed sample_pub_key_buffer (stack_zero 114)).2)
  = decode_scalar_448_rfc (sub 0 57 (toy_hash (sub 0 57 sample_seed))).
Proof.
  apply (cracen_ed448_create_pubkey_error_residue
           (backend_ok := faulty_ptmult_backend_ok)).
  - reflexivity.
  - reflexivity.
  - vm_compute. discriminate.
Defined.

Lemma sample_scalar_bytes n : Forall (λ b, b < 256)%N (sample_scalar n).
Proof. apply Forall_replicate. reflexivity. Defined.


Lemma sx_x448_ptmult_clamps_witness :
  ∃ p' k',
    sx_x448_ptmult (acc := toy_accelerator)
      (sample_scalar 56) (sample_point 56) (stack_junk 60) =
      (let '(status, out) :=
         sx_pk_run_wait (Accelerator := toy_accelerator)
           SX_PK_CMD_MONTGOMERY_PTMUL sx_curve_x448 p' k' in
       if decide (status ≠ SX_OK) then (status, stack_junk 60)
       else (status, upd 0 (sub 0 56 out) (stack_junk 60))) ∧
    let scalar := le (sub 0 56 k') in
    scalar
      = (2 ^ 447 + le (sample_scalar 56) mod 2 ^ 447
         - le (sample_scalar 56) mod 4)%N ∧
    (scalar mod 4 = 0)%N ∧ (2 ^ 447 ≤ scalar < 2 ^ 448)%N ∧
    sub 0 56 p' = sample_point 56 ∧
    drop 56 k' = drop 56 (replicate 64 0x22%N) ∧
    drop 56 p' = drop 56 (replicate 64 0x11%N).
Proof.
  apply (sx_x448_ptmult_clamps (mem := toy_accelerator_mem));
    try reflexivity; try apply sample_scalar_bytes; vm_compute; lia.
Defined.

Lemma montgomery_ptmult_result_frame_witness :
  (sx_x25519_ptmult (acc := faulty_accelerator)
     (sample_scalar 32) (sample_point 32) (stack_junk 40)).2 = stack_junk 40 ∧
  (sx_x448_ptmult (acc := faulty_accelerator)
     (sample_scalar 56) (sample_point 56) (stack_junk 40)).2 = stack_junk 40.
Proof.
  destruct (montgomery_ptmult_result_frame (mem := faulty_accelerator_mem)
              (sample_scalar 32) (sample_point 32) (stack_junk 40))
    as (H1 & _).
  destruct (montgomery_ptmult_result_frame (mem := faulty_accelerator_mem)
              (sample_scalar 56) (sample_point 56) (stack_junk 40))
    as (_ & _ & _ & H2 & _).
  split; [apply H1|apply H2]; vm_compute; discriminate.
Defined.

Lemma montgomery_ptmult_clamped_input_witness :
  sx_x25519_ptmult (acc := toy_accelerator)
    (<[0 := N.land (sample_scalar 32 !!! 0) 0xF8]>
       (<[31 := N.land (N.lor (sample_scalar 32 !!! 31) (N.shiftl 1 6)) 0x7f]>
          (sample_scalar 32)))
    (<[31 := N.land (sample_scalar 32 !!! 31) 0x7f]> (sample_scalar 32))
    (stack_junk 40)
  = sx_x25519_ptmult (acc := toy_accelerator)
      (sample_scalar 32) (sample_scalar 32) (stack_junk 40).
Proof.
  apply (montgomery_ptmult_clamped_input (mem := toy_accelerator_mem)).
  - intros p_slot k_slot [= <- <-]. split; vm_compute; lia.
  - reflexivity.
  - reflexivity.
Defined.
